(** * Parcels kernel executor: a shallow embedding of [parcels/kernel.py]

    The development follows the source file top to bottom: the numeric
    operations the executor applies to particle times, the particle record,
    the interpreted core loop [execute_python], the recovery driver
    [execute], kernel concatenation [merge] and the compile-cache key. *)

From Stdlib Require Import Floats.PrimFloat Strings.Ascii.
From stdpp Require Import base option list strings gmap.

Set Default Proof Using "Type".

(** ** Numbers as the executor uses them

    [execute_python] only ever applies [abs], [min], [-], [+], [*] and the
    comparison [> 0] to times.  The operations are kept behind an interface
    so that every theorem holds for whatever arithmetic the particle
    attributes carry; the instance used for evaluation is IEEE binary64,
    which is what Python's [float] is. *)

Class PyNum (T : Type) := {
  num_zero : T;
  num_one : T;
  num_neg_one : T;
  num_add : T -> T -> T;
  num_sub : T -> T -> T;
  num_mul : T -> T -> T;
  num_abs : T -> T;
  num_ltb : T -> T -> bool;
}.

(** Python's builtin [min(a, b)] keeps its first argument unless the second
    is strictly smaller. *)
Definition py_min {T} `{PyNum T} (a b : T) : T :=
  if num_ltb b a then b else a.

(** [x > 0] *)
Definition gt0 {T} `{PyNum T} (x : T) : bool := num_ltb num_zero x.

#[export] Instance float_PyNum : PyNum float := {|
  num_zero := 0%float;
  num_one := 1%float;
  num_neg_one := (-1)%float;
  num_add := PrimFloat.add;
  num_sub := PrimFloat.sub;
  num_mul := PrimFloat.mul;
  num_abs := PrimFloat.abs;
  num_ltb := PrimFloat.ltb;
|}.

(** ** [fix_indentation]

    Strings are sequences of characters; the line break is character 10. *)
Definition newline : ascii := "010"%char.
Definition nl : string := String newline "".

(** The character class [\s] of the regular expression [^(\s+)]. *)
Class WhiteSpace := is_space : ascii -> bool.

Section Indentation.
Context `{WhiteSpace}.

(** [string.split('\n')] *)
Fixpoint split_lines (s : string) : list string :=
  match s with
  | EmptyString => [EmptyString]
  | String c rest =>
    if Ascii.eqb c newline then EmptyString :: split_lines rest
    else
      match split_lines rest with
      | l :: ls => String c l :: ls
      | [] => [String c EmptyString]
      end
  end.

(** The longest run of [\s] characters at the start of a line. *)
Fixpoint leading_space (s : string) : string :=
  match s with
  | EmptyString => EmptyString
  | String c rest =>
    if is_space c then String c (leading_space rest) else EmptyString
  end.

(** [re_indent.match(line)] followed by [.groups()[0]]; [None] when the
    line does not start with [\s]. *)
Definition re_indent_match (s : string) : option string :=
  match leading_space s with
  | EmptyString => None
  | String c ws => Some (String c ws)
  end.

(** [Some rest] when [s] is [old] followed by [rest]. *)
Fixpoint strip_prefix (old s : string) : option string :=
  match old with
  | EmptyString => Some s
  | String a old' =>
    match s with
    | EmptyString => None
    | String b s' => if Ascii.eqb a b then strip_prefix old' s' else None
    end
  end.

(** [s.replace(old, '', 1)]: the first occurrence of [old] in [s] is cut
    out, wherever it is. *)
Fixpoint replace_first (old s : string) : string :=
  match strip_prefix old s with
  | Some rest => rest
  | None =>
    match s with
    | EmptyString => EmptyString
    | String c rest => String c (replace_first old rest)
    end
  end.

(** A text without line breaks. *)
Fixpoint newline_free (s : string) : bool :=
  match s with
  | EmptyString => true
  | String c rest => negb (Ascii.eqb c newline) && newline_free rest
  end.

(** ["\n".join(lines)] is [String.concat nl lines]. *)
Definition fix_indentation (s : string) : string :=
  let lines := split_lines s in
  let indent :=
    match lines with
    | [] => None
    | first :: _ => re_indent_match first
    end in
  let lines' :=
    match indent with
    | Some ind => map (replace_first ind) lines
    | None => lines
    end in
  String.concat nl lines'.
End Indentation.

(** ** Error codes and exceptions *)

(** Modelled from the spec: [parcels/kernels/error.py] is not among the
    sources.  [ErrorCode] is the closed enumeration of per-particle states;
    [Success] and [Repeat] are the live codes. *)
Inductive ErrorCode : Set :=
  | Success
  | Repeat
  | Delete
  | ErrorOutOfBounds
  | Error.

#[export] Instance ErrorCode_eq_dec : EqDecision ErrorCode.
Proof. solve_decision. Defined.

Definition ErrorCode_to_nat (c : ErrorCode) : nat :=
  match c with
  | Success => 0 | Repeat => 1 | Delete => 2 | ErrorOutOfBounds => 3 | Error => 4
  end.

Definition ErrorCode_of_nat (n : nat) : ErrorCode :=
  match n with
  | 0 => Success | 1 => Repeat | 2 => Delete | 3 => ErrorOutOfBounds | _ => Error
  end.

#[export] Instance ErrorCode_countable : Countable ErrorCode.
Proof.
  apply (inj_countable' ErrorCode_to_nat ErrorCode_of_nat).
  intros c. destruct c; reflexivity.
Defined.

(** Exceptions (subclasses of Python's [Exception]) that can travel through
    the executor.  [FieldSamplingError] is the out-of-bounds sampling error
    of [parcels.field]; [KeyError] is what a failed dictionary lookup
    raises; [AttributeError] is what dereferencing [None] raises. *)
Inductive PyExc : Type :=
  | FieldSamplingError (msg : string)
  | KeyError (key : ErrorCode)
  | AttributeError (attr : string)
  | PyException (cls msg : string).

Definition is_FieldSamplingError (e : PyExc) : bool :=
  match e with
  | FieldSamplingError _ => true
  | _ => false
  end.

(** What running a loop of the executor can lead to: it finishes in a state,
    an exception leaves it (the mutated state is kept), or the step budget
    of the embedding is used up before either happens. *)
Inductive Outcome (S : Type) : Type :=
  | Finished (s : S)
  | Propagated (e : PyExc) (s : S)
  | OutOfFuel.
Arguments Finished {S} s.
Arguments Propagated {S} e s.
Arguments OutOfFuel {S}.

(** ** Collaborators that are not in [kernel.py]

    The types the executor handles without looking inside. *)
Class Host := {
  (** whatever a user kernel can read and write besides its particle
      (random state, closures, module globals) *)
  World : Type;
  Grid : Type;
  Field : Type;
  (** [field.units.__class__.__name__] *)
  units_class_name : Field -> string;
  (** the particle attributes the executor never touches
      (lon, lat, dep, id, user variables) *)
  Attrs : Type;
  (** [ast.arguments] and [ast.stmt] *)
  arguments : Type;
  stmt : Type;
}.

(** [ParticleType]: the part of the schema the kernel code reads. *)
Module ParticleType.
Record t := mk {
  name : string;
  uses_jit : bool;
  _cache_key : string;
}.
End ParticleType.

Section Model.
Context {T : Type} `{PyNum T} `{Host}.

(** *** Particles *)
Record Particle := mkParticle {
  p_time : T;
  p_dt : T;
  p_state : ErrorCode;
  p_exception : option PyExc;
  p_attrs : Attrs;
}.

Definition set_time (v : T) (p : Particle) : Particle :=
  mkParticle v (p_dt p) (p_state p) (p_exception p) (p_attrs p).
Definition set_state (c : ErrorCode) (p : Particle) : Particle :=
  mkParticle (p_time p) (p_dt p) c (p_exception p) (p_attrs p).
Definition set_exception (e : PyExc) (p : Particle) : Particle :=
  mkParticle (p_time p) (p_dt p) (p_state p) (Some e) (p_attrs p).

(** A [ParticleSet] as the executor sees it: the particles in insertion
    order and the grid the set is bound to. *)
Record ParticleSet := mkParticleSet {
  particles : list Particle;
  pset_grid : Grid;
}.

(** *** User functions

    A call of a Python function on a particle either returns ([None] or an
    error code) or raises; in both cases the writes it made to the particle
    and to the world stay. *)
Inductive CallOutcome : Type :=
  | Returned (res : option ErrorCode)
  | Raised (e : PyExc).

(** [pyfunc(particle, grid, time, dt)] *)
Definition PyCallable : Type :=
  Particle -> Grid -> T -> T -> World -> CallOutcome * Particle * World.

(** [recovery_kernel(particle)]; its return value is discarded, [Some e]
    records a raise. *)
Definition RecoveryKernel : Type :=
  Particle -> World -> option PyExc * Particle * World.

(** A function object handed to the constructor, with the reflection data
    [__init__] reads off it. *)
Record PyFunction := mkPyFunction {
  __name__ : string;
  co_varnames : list string;
  getsource : string;
  call : PyCallable;
}.

(** [ast.FunctionDef] *)
Record FunctionDef := mkFunctionDef {
  fd_name : string;
  fd_args : arguments;
  fd_body : list stmt;
  fd_decorator_list : list stmt;
  fd_lineno : nat;
  fd_col_offset : nat;
}.

(** What the JIT branch of the constructor stores on the kernel. *)
Record JitData := mkJitData {
  field_args : list (string * Field);
  const_args : list (string * T);
  ccode : string;
  src_file : string;
  lib_file : string;
  log_file : string;
}.

(** *** The Kernel object *)
Record Kernel := mkKernel {
  grid : Grid;
  ptype : ParticleType.t;
  funcname : string;
  funcvars : list string;
  funccode : string;
  py_ast : FunctionDef;
  pyfunc : PyCallable;
  name : string;
  jit : option JitData;
}.
End Model.
Arguments Particle T {_}.
Arguments ParticleSet T {_}.
Arguments PyCallable T {_}.
Arguments RecoveryKernel T {_}.
Arguments PyFunction T {_}.
Arguments FunctionDef {_}.
Arguments JitData T {_}.
Arguments Kernel T {_}.

(** The functions and constants [kernel.py] imports or reaches through the
    interpreter. *)
Class Collaborators (T : Type) `{Host} := {
  (** [parse(fix_indentation(funccode)).body[0]] *)
  parse_source : string -> FunctionDef;
  (** [exec(compile(Module(body=[py_ast]), "<ast>", "exec"), user_ctx)]
      followed by [user_ctx[funcname]] *)
  exec_ast : FunctionDef -> string -> PyCallable T;
  (** [KernelGenerator(grid, ptype)]: [generate(py_ast, funcvars)] and the
      [field_args] and [const_args] it has recorded afterwards *)
  KernelGenerator :
    Grid -> ParticleType.t -> FunctionDef -> list string ->
    string * list (string * Field) * list (string * T);
  (** [LoopGenerator(grid, ptype).generate(funcname, field_args, const_args,
      kernel_ccode)] *)
  LoopGenerator :
    Grid -> ParticleType.t -> string -> list (string * Field) ->
    list (string * T) -> string -> string;
  (** [path.join(get_cache_dir(), key)] *)
  cache_path : string -> string;
  (** [md5(key.encode('utf-8')).hexdigest()]; strings are byte strings *)
  md5_hexdigest : string -> string;
  (** the [particle_loop] symbol of the library at [lib_file], called with
      the fields, the constants, [endtime] and [dt] on the packed particles *)
  particle_loop :
    string -> list Field -> list T -> T -> T ->
    list (Particle T) * World -> Outcome (list (Particle T) * World);
  (** [parcels.kernels.error.recovery_map] *)
  recovery_base_map : gmap ErrorCode (RecoveryKernel T);
}.

Section Definitions.
Context {T : Type} `{PyNum T} `{Host} `{!Collaborators T}.

(** ** [Kernel.__init__]

    Python's [a or b] evaluates [b] only when [a] is falsy ([None], the
    empty string, the empty list); [b] dereferences [pyfunc], which raises
    when [pyfunc] is [None].  [None] below is that raise. *)
Definition py_or {A : Type} (falsy : A -> bool) (a : option A)
    (b : option A) : option A :=
  match a with
  | Some x => if falsy x then b else Some x
  | None => b
  end.

Definition str_falsy (s : string) : bool :=
  match s with
  | EmptyString => true
  | String _ _ => false
  end.

Definition list_falsy {A : Type} (l : list A) : bool :=
  match l with
  | [] => true
  | _ :: _ => false
  end.

(** ["-".join(["%s:%s" % (name, field.units.__class__.__name__)
              for name, field in self.field_args.items()])] *)
Definition field_keys (fargs : list (string * Field)) : string :=
  String.concat "-"
    (map (fun item => fst item +:+ ":" +:+ units_class_name (snd item)) fargs).

(** The body of the [_cache_key] property, on the three attributes it
    reads. *)
Definition cache_key_of (kname : string) (pt : ParticleType.t)
    (fargs : list (string * Field)) : string :=
  let key := kname +:+ ParticleType._cache_key pt +:+ field_keys fargs in
  md5_hexdigest key.

(** The JIT branch of the constructor. *)
Definition generate_jit (g : Grid) (pt : ParticleType.t) (fname kname : string)
    (ast : FunctionDef) (fvars : list string) : JitData T :=
  let '(kernel_ccode, fargs, cargs) := KernelGenerator g pt ast fvars in
  let code := LoopGenerator g pt fname fargs cargs kernel_ccode in
  let basename := cache_path (cache_key_of kname pt fargs) in
  mkJitData fargs cargs code
    (basename +:+ ".c") (basename +:+ ".so") (basename +:+ ".log").

Definition __init__ (g : Grid) (pt : ParticleType.t)
    (pyfunc_arg : option (PyFunction T)) (funcname_arg : option string)
    (funccode_arg : option string) (py_ast_arg : option FunctionDef)
    (funcvars_arg : option (list string)) : option (Kernel T) :=
  fname ← py_or str_falsy funcname_arg (__name__ <$> pyfunc_arg);
  fvars ← py_or list_falsy funcvars_arg (co_varnames <$> pyfunc_arg);
  fcode ← py_or str_falsy funccode_arg (getsource <$> pyfunc_arg);
  let ast :=
    match py_ast_arg with
    | Some a => a
    | None => parse_source fcode
    end in
  let fn :=
    match pyfunc_arg with
    | None => exec_ast ast fname
    | Some f => call f
    end in
  let kname := ParticleType.name pt +:+ fname in
  Some (mkKernel g pt fname fvars fcode ast fn kname
          (if ParticleType.uses_jit pt
           then Some (generate_jit g pt fname kname ast fvars)
           else None)).

(** The [_cache_key] property; it reads [self.field_args], which only the
    JIT branch of the constructor sets. *)
Definition _cache_key (self : Kernel T) : option string :=
  jd ← jit self;
  Some (cache_key_of (name self) (ptype self) (field_args jd)).

(** ** [Kernel.execute_jit] *)
Definition execute_jit (self : Kernel T) (pset : ParticleSet T)
    (endtime dt : T) (w : World) : Outcome (ParticleSet T * World) :=
  match jit self with
  | None => Propagated (AttributeError "field_args") (pset, w)
  | Some jd =>
    let fargs := map snd (field_args jd) in
    let cargs := map snd (const_args jd) in
    match particle_loop (lib_file jd) fargs cargs endtime dt
            (particles pset, w) with
    | Finished (ps, w') => Finished (mkParticleSet ps (pset_grid pset), w')
    | Propagated e (ps, w') =>
      Propagated e (mkParticleSet ps (pset_grid pset), w')
    | OutOfFuel => OutOfFuel
    end
  end.

(** ** [Kernel.execute_python] *)

(** [min(abs(p.dt), abs(endtime - p.time))] *)
Definition dt_remaining (endtime : T) (p : Particle T) : T :=
  py_min (num_abs (p_dt p)) (num_abs (num_sub endtime (p_time p))).

(** [sign = 1. if dt > 0. else -1.] *)
Definition sign_of (dt : T) : T :=
  if gt0 dt then num_one else num_neg_one.

Inductive LoopCtl : Set := Continue | Break.

(** The [try]/[except] around the kernel call: the result code and the
    particle as the handlers leave it. *)
Definition try_pyfunc (fn : PyCallable T) (g : Grid) (p : Particle T)
    (dt_step : T) (w : World) : option ErrorCode * Particle T * World :=
  let '(out, p1, w1) := fn p g (p_time p) dt_step w in
  match out with
  | Returned res => (res, p1, w1)
  | Raised e =>
    if is_FieldSamplingError e
    then (Some ErrorOutOfBounds, set_exception e p1, w1)
    else (Some Error, set_exception e p1, w1)
  end.

(** One pass through the body of [while dt_pos > 0]. *)
Definition while_body (fn : PyCallable T) (g : Grid) (endtime sign : T)
    (p : Particle T) (w : World) (dt_pos : T)
    : LoopCtl * T * Particle T * World :=
  let '(res, p1, w1) := try_pyfunc fn g p (num_mul sign dt_pos) w in
  let p2 :=
    match res with
    | Some r => set_state r p1
    | None => p1
    end in
  match res with
  | None | Some Success =>
    let p3 := set_time (num_add (p_time p2) (num_mul sign dt_pos)) p2 in
    (Continue, dt_remaining endtime p3, p3, w1)
  | Some Repeat => (Continue, dt_remaining endtime p2, p2, w1)
  | Some _ => (Break, dt_pos, p2, w1)
  end.

Fixpoint while_dt_pos (fuel : nat) (fn : PyCallable T) (g : Grid)
    (endtime sign : T) (p : Particle T) (w : World) (dt_pos : T)
    : Outcome (Particle T * World) :=
  if gt0 dt_pos then
    match fuel with
    | 0 => OutOfFuel
    | S fuel' =>
      match while_body fn g endtime sign p w dt_pos with
      | (Continue, dt_pos', p', w') =>
        while_dt_pos fuel' fn g endtime sign p' w' dt_pos'
      | (Break, _, p', w') => Finished (p', w')
      end
    end
  else Finished (p, w).

(** [for p in pset.particles: ...] *)
Fixpoint for_particles (fuel : nat) (fn : PyCallable T) (g : Grid)
    (endtime sign : T) (ps : list (Particle T)) (w : World)
    : Outcome (list (Particle T) * World) :=
  match ps with
  | [] => Finished ([], w)
  | p :: rest =>
    match while_dt_pos fuel fn g endtime sign p w (dt_remaining endtime p) with
    | Finished (p', w') =>
      match for_particles fuel fn g endtime sign rest w' with
      | Finished (rest', w'') => Finished (p' :: rest', w'')
      | Propagated e (rest', w'') => Propagated e (p' :: rest', w'')
      | OutOfFuel => OutOfFuel
      end
    | Propagated e (p', w') => Propagated e (p' :: rest, w')
    | OutOfFuel => OutOfFuel
    end
  end.

Definition execute_python (fuel : nat) (self : Kernel T) (pset : ParticleSet T)
    (endtime dt : T) (w : World) : Outcome (ParticleSet T * World) :=
  let sign := sign_of dt in
  match for_particles fuel (pyfunc self) (pset_grid pset) endtime sign
          (particles pset) w with
  | Finished (ps, w') => Finished (mkParticleSet ps (pset_grid pset), w')
  | Propagated e (ps, w') =>
    Propagated e (mkParticleSet ps (pset_grid pset), w')
  | OutOfFuel => OutOfFuel
  end.
(** ** [Kernel.execute] *)

(** [[i for i, p in enumerate(pset.particles) if sel(p)]], counting from
    [i]. *)
Fixpoint enumerate_where (sel : Particle T -> bool) (i : nat)
    (ps : list (Particle T)) : list nat :=
  match ps with
  | [] => []
  | p :: rest =>
    if sel p then i :: enumerate_where sel (S i) rest
    else enumerate_where sel (S i) rest
  end.

(** Modelled from the spec: [ParticleSet.remove] is not among the sources.
    [remove(list_of_indices)] is a batch delete, stable on the rows that are
    not removed; rows are numbered from [i]. *)
Fixpoint pset_remove (indices : list nat) (i : nat)
    (ps : list (Particle T)) : list (Particle T) :=
  match ps with
  | [] => []
  | p :: rest =>
    if bool_decide (i ∈ indices) then pset_remove indices (S i) rest
    else p :: pset_remove indices (S i) rest
  end.

(** [p.state in [ErrorCode.Delete]] *)
Definition signalled_deletion (p : Particle T) : bool :=
  bool_decide (p_state p ∈ [Delete]).

(** [p.state not in [ErrorCode.Success, ErrorCode.Repeat]] *)
Definition threw_error (p : Particle T) : bool :=
  negb (bool_decide (p_state p ∈ [Success; Repeat])).

Definition remove_deleted (ps : list (Particle T)) : list (Particle T) :=
  let indices := enumerate_where signalled_deletion 0 ps in
  pset_remove indices 0 ps.

(** [error_particles] holds references to the particle objects of the set,
    not copies: what a recovery kernel writes is written to the set.  A
    reference is the position of the particle in [pset.particles]. *)
Definition error_particles (ps : list (Particle T)) : list nat :=
  enumerate_where threw_error 0 ps.

(** [recovery_map = recovery_base_map.copy(); recovery_map.update(recovery)]
    with [recovery = {}] when the argument is [None]. *)
Definition build_recovery_map
    (recovery : option (gmap ErrorCode (RecoveryKernel T)))
    : gmap ErrorCode (RecoveryKernel T) :=
  match recovery with
  | None => (∅ : gmap ErrorCode (RecoveryKernel T)) ∪ recovery_base_map
  | Some overrides => overrides ∪ recovery_base_map
  end.

(** [for p in error_particles: ...] on the store of particles.  A reference
    taken from the set always points into it, so the lookup of [i] finds the
    particle; the recovery kernel's writes go back to the same place. *)
Fixpoint apply_recovery (recovery_map : gmap ErrorCode (RecoveryKernel T))
    (refs : list nat) (ps : list (Particle T)) (w : World)
    : Outcome (list (Particle T) * World) :=
  match refs with
  | [] => Finished (ps, w)
  | i :: refs' =>
    match ps !! i with
    | None => apply_recovery recovery_map refs' ps w
    | Some p =>
      match recovery_map !! p_state p with
      | None => Propagated (KeyError (p_state p)) (ps, w)
      | Some recovery_kernel =>
        let '(raised, p', w') := recovery_kernel (set_state Success p) w in
        match raised with
        | Some e => Propagated e (<[i := p']> ps, w')
        | None => apply_recovery recovery_map refs' (<[i := p']> ps) w'
        end
      end
    end
  end.

(** [if self.ptype.uses_jit: self.execute_jit(...) else:
    self.execute_python(...)] *)
Definition core_loop (fuel : nat) (self : Kernel T) (pset : ParticleSet T)
    (endtime dt : T) (w : World) : Outcome (ParticleSet T * World) :=
  if ParticleType.uses_jit (ptype self)
  then execute_jit self pset endtime dt w
  else execute_python fuel self pset endtime dt w.

(** The body of [while len(error_particles) > 0]. *)
Definition recovery_round (fuel : nat) (self : Kernel T)
    (recovery_map : gmap ErrorCode (RecoveryKernel T)) (endtime dt : T)
    (pset : ParticleSet T) (w : World) : Outcome (ParticleSet T * World) :=
  match apply_recovery recovery_map (error_particles (particles pset))
          (particles pset) w with
  | Finished (ps1, w1) =>
    core_loop fuel self (mkParticleSet (remove_deleted ps1) (pset_grid pset))
      endtime dt w1
  | Propagated e (ps1, w1) =>
    Propagated e (mkParticleSet ps1 (pset_grid pset), w1)
  | OutOfFuel => OutOfFuel
  end.

(** [rounds] bounds the passes through the recovery loop, [fuel] the passes
    through each particle's time loop. *)
Fixpoint recovery_while (rounds fuel : nat) (self : Kernel T)
    (recovery_map : gmap ErrorCode (RecoveryKernel T)) (endtime dt : T)
    (pset : ParticleSet T) (w : World) : Outcome (ParticleSet T * World) :=
  match error_particles (particles pset) with
  | [] => Finished (pset, w)
  | _ :: _ =>
    match rounds with
    | 0 => OutOfFuel
    | S rounds' =>
      match recovery_round fuel self recovery_map endtime dt pset w with
      | Finished (pset', w') =>
        recovery_while rounds' fuel self recovery_map endtime dt pset' w'
      | other => other
      end
    end
  end.

Definition execute (fuel : nat) (self : Kernel T) (pset : ParticleSet T)
    (endtime dt : T)
    (recovery : option (gmap ErrorCode (RecoveryKernel T))) (w : World)
    : Outcome (ParticleSet T * World) :=
  let recovery_map := build_recovery_map recovery in
  match core_loop fuel self pset endtime dt w with
  | Finished (pset1, w1) =>
    let pset2 :=
      mkParticleSet (remove_deleted (particles pset1)) (pset_grid pset1) in
    recovery_while fuel fuel self recovery_map endtime dt pset2 w1
  | other => other
  end.

(** ** [Kernel.merge], [__add__], [__radd__] *)
Definition merge (self kernel : Kernel T) : option (Kernel T) :=
  let fname := funcname self +:+ funcname kernel in
  let func_ast :=
    mkFunctionDef fname (fd_args (py_ast self))
      (fd_body (py_ast self) ++ fd_body (py_ast kernel)) [] 1 0 in
  __init__ (grid self) (ptype self) None (Some fname)
    (Some (funccode self +:+ funccode kernel)) (Some func_ast)
    (Some (funcvars self ++ funcvars kernel)).

(** The operand of [+] is a Kernel or a plain function
    ([isinstance(kernel, Kernel)]). *)
Definition as_kernel (self : Kernel T) (operand : Kernel T + PyFunction T)
    : option (Kernel T) :=
  match operand with
  | inl k => Some k
  | inr f => __init__ (grid self) (ptype self) (Some f) None None None None
  end.

Definition __add__ (self : Kernel T) (operand : Kernel T + PyFunction T)
    : option (Kernel T) :=
  kernel ← as_kernel self operand; merge self kernel.

Definition __radd__ (self : Kernel T) (operand : Kernel T + PyFunction T)
    : option (Kernel T) :=
  kernel ← as_kernel self operand; merge kernel self.
End Definitions.

(** ** The executor as the specification words it

    Two definitions that follow the prose of the specification rather than
    the code: the per-particle state machine as a relation between the
    particle at entry and at exit, and the recovery driver as a function
    over the particle list.  The theorems below compare them with the
    definitions above. *)
Section SpecDefinitions.
Context {T : Type} `{PyNum T} `{Host} `{!Collaborators T}.

Inductive spec_inner_loop (KERNEL : PyCallable T) (g : Grid)
    (endtime sign : T)
    : Particle T -> World -> T -> Particle T -> World -> Prop :=
  | inner_exit p w dt_rem :
      gt0 dt_rem = false ->
      spec_inner_loop KERNEL g endtime sign p w dt_rem p w
  | inner_no_return p w dt_rem p1 w1 p' w' :
      gt0 dt_rem = true ->
      KERNEL p g (p_time p) (num_mul sign dt_rem) w = (Returned None, p1, w1) ->
      let advanced := set_time (num_add (p_time p1) (num_mul sign dt_rem)) p1 in
      spec_inner_loop KERNEL g endtime sign
        advanced w1 (dt_remaining endtime advanced) p' w' ->
      spec_inner_loop KERNEL g endtime sign p w dt_rem p' w'
  | inner_success p w dt_rem p1 w1 p' w' :
      gt0 dt_rem = true ->
      KERNEL p g (p_time p) (num_mul sign dt_rem) w
        = (Returned (Some Success), p1, w1) ->
      let advanced :=
        set_time (num_add (p_time p1) (num_mul sign dt_rem))
          (set_state Success p1) in
      spec_inner_loop KERNEL g endtime sign
        advanced w1 (dt_remaining endtime advanced) p' w' ->
      spec_inner_loop KERNEL g endtime sign p w dt_rem p' w'
  | inner_repeat p w dt_rem p1 w1 p' w' :
      gt0 dt_rem = true ->
      KERNEL p g (p_time p) (num_mul sign dt_rem) w
        = (Returned (Some Repeat), p1, w1) ->
      spec_inner_loop KERNEL g endtime sign
        (set_state Repeat p1) w1 (dt_remaining endtime (set_state Repeat p1))
        p' w' ->
      spec_inner_loop KERNEL g endtime sign p w dt_rem p' w'
  | inner_other p w dt_rem c p1 w1 :
      gt0 dt_rem = true ->
      KERNEL p g (p_time p) (num_mul sign dt_rem) w
        = (Returned (Some c), p1, w1) ->
      c <> Success -> c <> Repeat ->
      spec_inner_loop KERNEL g endtime sign p w dt_rem (set_state c p1) w1
  | inner_out_of_bounds p w dt_rem msg p1 w1 :
      gt0 dt_rem = true ->
      KERNEL p g (p_time p) (num_mul sign dt_rem) w
        = (Raised (FieldSamplingError msg), p1, w1) ->
      spec_inner_loop KERNEL g endtime sign p w dt_rem
        (set_state ErrorOutOfBounds
           (set_exception (FieldSamplingError msg) p1)) w1
  | inner_failure p w dt_rem e p1 w1 :
      gt0 dt_rem = true ->
      KERNEL p g (p_time p) (num_mul sign dt_rem) w = (Raised e, p1, w1) ->
      (forall msg, e <> FieldSamplingError msg) ->
      spec_inner_loop KERNEL g endtime sign p w dt_rem
        (set_state Error (set_exception e p1)) w1.

(** "for each particle p", in insertion order. *)
Inductive spec_core_loop (KERNEL : PyCallable T) (g : Grid) (endtime dt : T)
    : list (Particle T) -> World -> list (Particle T) -> World -> Prop :=
  | core_nil w : spec_core_loop KERNEL g endtime dt [] w [] w
  | core_cons p ps w p' w' ps' w'' :
      spec_inner_loop KERNEL g endtime
        (if gt0 dt then num_one else num_neg_one)
        p w (py_min (num_abs (p_dt p)) (num_abs (num_sub endtime (p_time p))))
        p' w' ->
      spec_core_loop KERNEL g endtime dt ps w' ps' w'' ->
      spec_core_loop KERNEL g endtime dt (p :: ps) w (p' :: ps') w''.

(** "particles whose state is not in {Success, Repeat}" *)
Definition in_err_set (p : Particle T) : Prop :=
  p_state p <> Success /\ p_state p <> Repeat.

#[export] Instance in_err_set_dec p : Decision (in_err_set p).
Proof. unfold in_err_set. apply _. Defined.

(** "Remove particles whose state is Delete." *)
Definition spec_remove_deleted (ps : list (Particle T)) : list (Particle T) :=
  filter (fun p => p_state p <> Delete) ps.

(** "For each p in err_set: look up recovery_map[p.state], set
    p.state = Success, then invoke the recovery kernel on p." *)
Fixpoint spec_recover (recovery_map : gmap ErrorCode (RecoveryKernel T))
    (ps : list (Particle T)) (w : World)
    : Outcome (list (Particle T) * World) :=
  match ps with
  | [] => Finished ([], w)
  | p :: rest =>
    if decide (in_err_set p) then
      match recovery_map !! p_state p with
      | None => Propagated (KeyError (p_state p)) (p :: rest, w)
      | Some handler =>
        match handler (set_state Success p) w with
        | (Some e, p', w') => Propagated e (p' :: rest, w')
        | (None, p', w') =>
          match spec_recover recovery_map rest w' with
          | Finished (rest', w'') => Finished (p' :: rest', w'')
          | Propagated e (rest', w'') => Propagated e (p' :: rest', w'')
          | OutOfFuel => OutOfFuel
          end
        end
      end
    else
      match spec_recover recovery_map rest w with
      | Finished (rest', w'') => Finished (p :: rest', w'')
      | Propagated e (rest', w'') => Propagated e (p :: rest', w'')
      | OutOfFuel => OutOfFuel
      end
  end.

(** Step 3: "While err_set is non-empty: ... Remove Delete particles.
    Re-run the core loop.  Recompute err_set." *)
Fixpoint spec_recovery_steps (rounds fuel : nat) (self : Kernel T)
    (recovery_map : gmap ErrorCode (RecoveryKernel T)) (endtime dt : T)
    (pset : ParticleSet T) (w : World) : Outcome (ParticleSet T * World) :=
  if decide (Exists in_err_set (particles pset)) then
    match rounds with
    | 0 => OutOfFuel
    | S rounds' =>
      match spec_recover recovery_map (particles pset) w with
      | Finished (ps1, w1) =>
        match core_loop fuel self
                (mkParticleSet (spec_remove_deleted ps1) (pset_grid pset))
                endtime dt w1 with
        | Finished (pset', w') =>
          spec_recovery_steps rounds' fuel self recovery_map endtime dt pset' w'
        | other => other
        end
      | Propagated e (ps1, w1) =>
        Propagated e (mkParticleSet ps1 (pset_grid pset), w1)
      | OutOfFuel => OutOfFuel
      end
    end
  else Finished (pset, w).

(** Steps 1 to 3 after "all particles have been stepped". *)
Definition spec_execute (fuel : nat) (self : Kernel T) (pset : ParticleSet T)
    (endtime dt : T)
    (recovery : option (gmap ErrorCode (RecoveryKernel T))) (w : World)
    : Outcome (ParticleSet T * World) :=
  match core_loop fuel self pset endtime dt w with
  | Finished (pset1, w1) =>
    spec_recovery_steps fuel fuel self
      (default ∅ recovery ∪ recovery_base_map) endtime dt
      (mkParticleSet (spec_remove_deleted (particles pset1)) (pset_grid pset1))
      w1
  | other => other
  end.

(** A kernel that "returns Repeat on every invocation". *)
Definition always_repeats (fn : PyCallable T) : Prop :=
  forall p g t d w, exists p1 w1, fn p g t d w = (Returned (Some Repeat), p1, w1).

(** A kernel that does not itself write [particle.time], respectively
    [particle.dt]. *)
Definition keeps_time (fn : PyCallable T) : Prop :=
  forall p g t d w, p_time (fn p g t d w).1.2 = p_time p.

Definition keeps_dt (fn : PyCallable T) : Prop :=
  forall p g t d w, p_dt (fn p g t d w).1.2 = p_dt p.

(** "particles that still have time remaining" *)
Definition time_remaining (endtime : T) (p : Particle T) : Prop :=
  gt0 (dt_remaining endtime p) = true.

(** The live codes. *)
Definition live (p : Particle T) : Prop :=
  p_state p = Success \/ p_state p = Repeat.

(** Every kernel built from a function that takes the kernel parameters
    [(particle, grid, time, dt)] has a name, a source text and at least one
    variable name; these are the values [__init__] accepts without falling
    back on [pyfunc]. *)
Definition kernel_wf (k : Kernel T) : Prop :=
  funcname k <> "" /\ funccode k <> "" /\ funcvars k <> [].
End SpecDefinitions.

(** ** A concrete setting for evaluation

    Times are IEEE binary64 numbers; the world is a counter of kernel calls;
    a particle carries its longitude.  The collaborators are the smallest
    ones that let the constructor and the executor run; the digest is the
    identity, so that the string that gets hashed can be read off. *)
Module Demo.
#[local] Set Warnings "-inexact-float".

#[export] Instance host : Host := {|
  World := nat;
  Grid := unit;
  Field := string;
  units_class_name := fun units => units;
  Attrs := float;
  arguments := list string;
  stmt := string;
|}.

(** A compiled tree that does nothing and returns [None]. *)
Definition compiled_pass : PyCallable float :=
  fun p _ _ _ w => (Returned None, p, S w).

(** A recovery kernel that marks the particle for deletion, as the
    specification says the defaults do. *)
Definition recovery_delete : RecoveryKernel float :=
  fun p w => (None, set_state Delete p, w).

#[export] Instance collaborators : Collaborators float := {|
  parse_source := fun code => mkFunctionDef code [] [code] [] 1 0;
  exec_ast := fun _ _ => compiled_pass;
  KernelGenerator := fun _ _ _ _ =>
    ("", [("U", "Geographic"); ("V", "Geographic")], []);
  LoopGenerator := fun _ _ fname _ _ body => fname +:+ body;
  cache_path := fun key => "/tmp/parcels/" +:+ key;
  md5_hexdigest := fun key => key;
  particle_loop := fun _ _ _ _ _ st => Finished st;
  recovery_base_map :=
    {[ ErrorOutOfBounds := recovery_delete; Error := recovery_delete ]};
|}.

Definition Particle_ptype : ParticleType.t :=
  ParticleType.mk "Particle" false "Particle:lon,lat,dep,time,dt".

Definition JITParticle_ptype : ParticleType.t :=
  ParticleType.mk "JITParticle" true "JITParticle:lon,lat,dep,time,dt".

Definition kernel_params : list string := ["particle"; "grid"; "time"; "dt"].

(** [def AlwaysRepeat(particle, grid, time, dt): return ErrorCode.Repeat] *)
Definition AlwaysRepeat : PyFunction float :=
  mkPyFunction "AlwaysRepeat" kernel_params
    "def AlwaysRepeat(particle, grid, time, dt): return ErrorCode.Repeat"
    (fun p _ _ _ w => (Returned (Some Repeat), p, S w)).

(** [def AlwaysFails(particle, grid, time, dt): raise ValueError("bad")] *)
Definition AlwaysFails : PyFunction float :=
  mkPyFunction "AlwaysFails" kernel_params
    "def AlwaysFails(particle, grid, time, dt): raise ValueError('bad')"
    (fun p _ _ _ w => (Raised (PyException "ValueError" "bad"), p, w)).

(** A kernel that samples outside the domain. *)
Definition LeavesDomain : PyFunction float :=
  mkPyFunction "LeavesDomain" kernel_params
    "def LeavesDomain(particle, grid, time, dt): grid.U[2., 2., 0., time]"
    (fun p _ _ _ w => (Raised (FieldSamplingError "U"), p, w)).

(** The kernel of [test_pset_remove_kernel]:
    [if particle.lon >= .4: particle.delete()]. *)
Definition DeleteKernel : PyFunction float :=
  mkPyFunction "DeleteKernel" kernel_params
    "def DeleteKernel(particle, grid, time, dt): ..."
    (fun p _ _ _ w =>
       if PrimFloat.leb 0.4%float (p_attrs p)
       then (Returned None, set_state Delete p, w)
       else (Returned None, p, w)).

(** [def Step(particle, grid, time, dt): return ErrorCode.Success] *)
Definition Step : PyFunction float :=
  mkPyFunction "Step" kernel_params
    "def Step(particle, grid, time, dt): return ErrorCode.Success"
    (fun p _ _ _ w => (Returned (Some Success), p, w)).

Definition kernel_of (pt : ParticleType.t) (f : PyFunction float)
    : Kernel float :=
  default
    (mkKernel tt pt "" [] "" (mkFunctionDef "" [] [] [] 0 0) compiled_pass ""
       None)
    (__init__ tt pt (Some f) None None None None).

Definition make_particle (t d : float) (st : ErrorCode)
    (exc : option PyExc) (lon : float) : Particle float :=
  mkParticle t d st exc lon.

Definition pset_of (ps : list (Particle float)) : ParticleSet float :=
  mkParticleSet ps tt.

(** A particle at time 0 with time step 1. *)
Definition particle_at (lon : float) (st : ErrorCode) : Particle float :=
  make_particle 0%float 1%float st None lon.

Definition one_particle : ParticleSet float :=
  pset_of [particle_at 0.5%float Success].

Definition three_particles : ParticleSet float :=
  pset_of
    [particle_at 0.1%float Success; particle_at 0.5%float Success;
     particle_at 0.3%float Success].

(** [one_particle] after a kernel call that raised [ValueError]. *)
Definition failed_particle : ParticleSet float :=
  pset_of
    [make_particle 0%float 1%float Error
       (Some (PyException "ValueError" "bad")) 0.5%float].

(** [\s] on ASCII text: space, tab, line feed, vertical tab, form feed,
    carriage return. *)
#[export] Instance ascii_space : WhiteSpace := fun c =>
  bool_decide (c ∈ [" "; "009"; "010"; "011"; "012"; "013"]%char).

(** [def Nothing(): pass], a function without parameters or locals. *)
Definition Nothing : PyFunction float :=
  mkPyFunction "Nothing" [] "def Nothing(): pass" compiled_pass.

(** A particle that has reached time 1. *)
Definition arrived_particle : ParticleSet float :=
  pset_of [make_particle 1%float 1%float Repeat None 0.5%float].

(** A particle a kernel has just marked for deletion. *)
Definition marked_particle : ParticleSet float :=
  pset_of [make_particle 1%float 1%float Delete None 0.5%float].

(** A recovery kernel that leaves the particle as it is. *)
Definition recovery_ignore : RecoveryKernel float :=
  fun p w => (None, p, w).

Definition ignore_errors : gmap ErrorCode (RecoveryKernel float) :=
  {[ Error := recovery_ignore ]}.

End Demo.

(** * Properties *)
Section Properties.
Context {T : Type} `{PyNum T} `{Host} `{!Collaborators T}.

Implicit Types (p : Particle T) (w : World) (fn : PyCallable T).

(** ** The time loop of one particle *)

Ltac case_call fn p g t d w :=
  let out := fresh "out" in
  let p1 := fresh "p1" in
  let w1 := fresh "w1" in
  let Hcall := fresh "Hcall" in
  destruct (fn p g t d w) as [[out p1] w1] eqn:Hcall;
  destruct out as [[[]|]|?].

Lemma not_sampling_error e :
  is_FieldSamplingError e = false <-> forall msg, e <> FieldSamplingError msg.
Proof.
  split.
  - intros He msg ->. discriminate He.
  - intros He. destruct e; try reflexivity. exfalso. by eapply He.
Qed.

Lemma while_dt_pos_exit fuel fn g endtime sign p w d :
  gt0 d = false -> while_dt_pos fuel fn g endtime sign p w d = Finished (p, w).
Proof. intros Hd. destruct fuel; simpl; by rewrite Hd. Qed.

Lemma while_dt_pos_step fuel fn g endtime sign p w d :
  gt0 d = true ->
  while_dt_pos (S fuel) fn g endtime sign p w d =
    match while_body fn g endtime sign p w d with
    | (Continue, d', p', w') => while_dt_pos fuel fn g endtime sign p' w' d'
    | (Break, _, p', w') => Finished (p', w')
    end.
Proof. intros Hd. simpl. by rewrite Hd. Qed.

(** More fuel never changes an answer that was already reached. *)
Lemma while_dt_pos_mono fuel fuel' fn g endtime sign p w d r :
  fuel <= fuel' ->
  while_dt_pos fuel fn g endtime sign p w d = r -> r <> OutOfFuel ->
  while_dt_pos fuel' fn g endtime sign p w d = r.
Proof.
  revert fuel' p w d. induction fuel as [|fuel IH]; intros fuel' p w d Hle Hr Hne.
  - destruct (gt0 d) eqn:Hd.
    + simpl in Hr. rewrite Hd in Hr. congruence.
    + rewrite while_dt_pos_exit in Hr by done. by rewrite while_dt_pos_exit.
  - destruct fuel' as [|fuel']; [lia|].
    destruct (gt0 d) eqn:Hd.
    + rewrite while_dt_pos_step in Hr by done. rewrite while_dt_pos_step by done.
      destruct (while_body fn g endtime sign p w d) as [[[[] d'] p'] w']; [|done].
      apply IH; [lia|done..].
    + rewrite while_dt_pos_exit in Hr by done. by rewrite while_dt_pos_exit.
Qed.

Lemma while_dt_pos_never_raises fuel fn g endtime sign p w d e s :
  while_dt_pos fuel fn g endtime sign p w d <> Propagated e s.
Proof.
  revert p w d. induction fuel as [|fuel IH]; intros p w d; simpl.
  - by destruct (gt0 d).
  - destruct (gt0 d); [|done].
    destruct (while_body fn g endtime sign p w d) as [[[[] d'] p'] w']; [|done].
    apply IH.
Qed.

Lemma while_dt_pos_sound fuel fn g endtime sign p w d p' w' :
  while_dt_pos fuel fn g endtime sign p w d = Finished (p', w') ->
  spec_inner_loop fn g endtime sign p w d p' w'.
Proof.
  revert p w d. induction fuel as [|fuel IH]; intros p w d.
  - simpl. destruct (gt0 d) eqn:Hd; [done|].
    intros [= <- <-]. by constructor.
  - destruct (gt0 d) eqn:Hd.
    + rewrite while_dt_pos_step by done. unfold while_body, try_pyfunc.
      case_call fn p g (p_time p) (num_mul sign d) w; simpl.
      * intros Hrec. eapply inner_success; eauto.
      * intros Hrec. eapply inner_repeat; eauto.
      * intros [= <- <-]. by eapply inner_other.
      * intros [= <- <-]. by eapply inner_other.
      * intros [= <- <-]. by eapply inner_other.
      * intros Hrec. eapply inner_no_return; eauto.
      * destruct (is_FieldSamplingError e) eqn:He; simpl; intros [= <- <-].
        -- destruct e; try discriminate He. by eapply inner_out_of_bounds.
        -- eapply inner_failure; eauto. by apply not_sampling_error.
    + rewrite while_dt_pos_exit by done. intros [= <- <-]. by constructor.
Qed.

Lemma while_dt_pos_complete fn g endtime sign p w d p' w' :
  spec_inner_loop fn g endtime sign p w d p' w' ->
  exists fuel, while_dt_pos fuel fn g endtime sign p w d = Finished (p', w').
Proof.
  induction 1 as
    [p w d Hd
    |p w d p1 w1 p' w' Hd Hcall adv _ [fuel IH]
    |p w d p1 w1 p' w' Hd Hcall adv _ [fuel IH]
    |p w d p1 w1 p' w' Hd Hcall _ [fuel IH]
    |p w d c p1 w1 Hd Hcall Hs Hr
    |p w d msg p1 w1 Hd Hcall
    |p w d e p1 w1 Hd Hcall He].
  - exists 0. by apply while_dt_pos_exit.
  - exists (S fuel). rewrite while_dt_pos_step by done.
    unfold while_body, try_pyfunc. by rewrite Hcall.
  - exists (S fuel). rewrite while_dt_pos_step by done.
    unfold while_body, try_pyfunc. by rewrite Hcall.
  - exists (S fuel). rewrite while_dt_pos_step by done.
    unfold while_body, try_pyfunc. by rewrite Hcall.
  - exists 1. rewrite while_dt_pos_step by done.
    unfold while_body, try_pyfunc. rewrite Hcall. by destruct c.
  - exists 1. rewrite while_dt_pos_step by done.
    unfold while_body, try_pyfunc. by rewrite Hcall.
  - exists 1. rewrite while_dt_pos_step by done.
    unfold while_body, try_pyfunc. rewrite Hcall.
    apply not_sampling_error in He. by rewrite He.
Qed.
(** ** The loop over the particles *)

Lemma for_particles_mono fuel fuel' fn g endtime sign ps w r :
  fuel <= fuel' ->
  for_particles fuel fn g endtime sign ps w = r -> r <> OutOfFuel ->
  for_particles fuel' fn g endtime sign ps w = r.
Proof.
  intros Hle. revert w r. induction ps as [|p ps IH]; intros w r; [done|].
  simpl.
  destruct (while_dt_pos fuel fn g endtime sign p w (dt_remaining endtime p))
    as [[p' w']|e [p' w']|] eqn:Hp.
  - rewrite (while_dt_pos_mono _ _ _ _ _ _ _ _ _ _ Hle Hp) by done.
    destruct (for_particles fuel fn g endtime sign ps w')
      as [[ps' w'']|e [ps' w'']|] eqn:Hps.
    + by rewrite (IH _ _ Hps).
    + by rewrite (IH _ _ Hps).
    + congruence.
  - by apply while_dt_pos_never_raises in Hp.
  - congruence.
Qed.

Lemma for_particles_never_raises fuel fn g endtime sign ps w e s :
  for_particles fuel fn g endtime sign ps w <> Propagated e s.
Proof.
  revert w e s. induction ps as [|p ps IH]; intros w e s; [done|]. simpl.
  destruct (while_dt_pos fuel fn g endtime sign p w (dt_remaining endtime p))
    as [[p' w']|e' [p' w']|] eqn:Hp; [| |done].
  - destruct (for_particles fuel fn g endtime sign ps w')
      as [[ps' w'']|e' [ps' w'']|] eqn:Hps; [done| |done].
    by apply IH in Hps.
  - by apply while_dt_pos_never_raises in Hp.
Qed.

Lemma for_particles_sound fuel fn g endtime dt ps w ps' w' :
  for_particles fuel fn g endtime (sign_of dt) ps w = Finished (ps', w') ->
  spec_core_loop fn g endtime dt ps w ps' w'.
Proof.
  revert w ps'. induction ps as [|p ps IH]; intros w ps'; simpl.
  - intros [= <- <-]. constructor.
  - destruct (while_dt_pos fuel fn g endtime (sign_of dt) p w
                (dt_remaining endtime p)) as [[p' w1]|e [p' w1]|] eqn:Hp;
      [| |done].
    + destruct (for_particles fuel fn g endtime (sign_of dt) ps w1)
        as [[ps1 w2]|e [ps1 w2]|] eqn:Hps; [|done..].
      intros [= <- <-]. econstructor; [|by apply IH].
      by apply while_dt_pos_sound in Hp.
    + by destruct (while_dt_pos_never_raises _ _ _ _ _ _ _ _ _ _ Hp).
Qed.

Lemma for_particles_complete fn g endtime dt ps w ps' w' :
  spec_core_loop fn g endtime dt ps w ps' w' ->
  exists fuel,
    for_particles fuel fn g endtime (sign_of dt) ps w = Finished (ps', w').
Proof.
  induction 1 as [w|p ps w p' w' ps' w'' Hp _ [fuel2 IH]].
  - by exists 0.
  - apply while_dt_pos_complete in Hp as [fuel1 Hp].
    exists (fuel1 `max` fuel2). simpl.
    rewrite (while_dt_pos_mono fuel1 _ _ _ _ _ _ _ _ _ (Nat.le_max_l _ _) Hp)
      by done.
    by rewrite (for_particles_mono fuel2 _ _ _ _ _ _ _ _ (Nat.le_max_r _ _) IH).
Qed.

(** C1: in the interpreted path the executor runs, for every particle in
    turn, the time loop of the specification: starting from
    [dt_remaining = min(|p.dt|, |endtime - p.time|)], while
    [dt_remaining > 0] it calls the kernel with
    [(p, grid, p.time, sign * dt_remaining)], [sign] being [+1] if [dt > 0]
    and [-1] otherwise; on [Success] or no return value it advances [p.time]
    by [sign * dt_remaining] and recomputes [dt_remaining]; on [Repeat] it
    recomputes without advancing; on anything else it leaves the loop.
    [execute_python] finishes with a particle set exactly when that state
    machine relates the set at entry to it. *)
Theorem execute_python_runs_state_machine
    (self : Kernel T) (pset pset' : ParticleSet T) (endtime dt : T) w w' :
  (exists fuel,
     execute_python fuel self pset endtime dt w = Finished (pset', w')) <->
  pset_grid pset' = pset_grid pset /\
  spec_core_loop (pyfunc self) (pset_grid pset) endtime dt
    (particles pset) w (particles pset') w'.
Proof.
  unfold execute_python. split.
  - intros [fuel Hrun].
    destruct (for_particles fuel (pyfunc self) (pset_grid pset) endtime
                (sign_of dt) (particles pset) w)
      as [[ps1 w1]|e [ps1 w1]|] eqn:Hfor; [|done..].
    injection Hrun as <- <-. split; [done|].
    by apply for_particles_sound in Hfor.
  - intros [Hgrid Hspec]. apply for_particles_complete in Hspec as [fuel Hfor].
    exists fuel. rewrite Hfor. destruct pset' as [ps' g']. simpl in *.
    by subst.
Qed.

(** C4: when the kernel call on a particle raises the out-of-bounds
    sampling error, the pass through the time loop ends that loop normally
    with the particle's state [ErrorOutOfBounds] and the exception stored on
    it; when it raises anything else, with state [Error] and the exception
    stored; and no run of the core loop ends in a propagated exception. *)
Theorem kernel_exceptions_are_caught
    (self : Kernel T) (g : Grid) (endtime sign dt_pos : T) p w e p1 w1 :
  gt0 dt_pos = true ->
  pyfunc self p g (p_time p) (num_mul sign dt_pos) w = (Raised e, p1, w1) ->
  (forall fuel,
     while_dt_pos (S fuel) (pyfunc self) g endtime sign p w dt_pos =
       Finished
         (mkParticle (p_time p1) (p_dt p1)
            (if is_FieldSamplingError e then ErrorOutOfBounds else Error)
            (Some e) (p_attrs p1), w1)) /\
  (forall fuel pset endtime' dt' w0 e' s,
     execute_python fuel self pset endtime' dt' w0 <> Propagated e' s).
Proof.
  intros Hd Hcall. split.
  - intros fuel. rewrite while_dt_pos_step by done.
    unfold while_body, try_pyfunc. rewrite Hcall.
    by destruct (is_FieldSamplingError e).
  - intros fuel pset endtime' dt' w0 e' s. unfold execute_python.
    destruct (for_particles fuel (pyfunc self) (pset_grid pset) endtime'
                (sign_of dt') (particles pset) w0)
      as [[ps1 w2]|e2 [ps1 w2]|] eqn:Hfor; [done| |done].
    by apply for_particles_never_raises in Hfor.
Qed.

(** C8 (as amended): when the kernel call returns [Success] explicitly, the
    pass advances the particle's time and leaves its state [Success],
    whatever the state was before; when the call returns nothing, the pass
    advances the time and the state is the one the kernel left on the
    particle. *)
Theorem state_after_advance
    fn (g : Grid) (endtime sign dt_pos : T) p w res p1 w1 :
  fn p g (p_time p) (num_mul sign dt_pos) w = (Returned res, p1, w1) ->
  res = None \/ res = Some Success ->
  exists p',
    while_body fn g endtime sign p w dt_pos
      = (Continue, dt_remaining endtime p', p', w1) /\
    p_time p' = num_add (p_time p1) (num_mul sign dt_pos) /\
    p_state p' = match res with Some _ => Success | None => p_state p1 end.
Proof.
  intros Hcall Hres. unfold while_body, try_pyfunc. rewrite Hcall.
  destruct Hres as [-> | ->]; eexists; (split; [reflexivity|done]).
Qed.
(** ** Kernels that always return [Repeat] *)

Lemma repeat_call fn p g t d w :
  always_repeats fn ->
  exists p1 w1, fn p g t d w = (Returned (Some Repeat), p1, w1) /\
    p1 = (fn p g t d w).1.2.
Proof. intros Hr. destruct (Hr p g t d w) as (p1 & w1 & ->). eauto. Qed.

Lemma repeat_body fn g endtime sign p w d :
  always_repeats fn ->
  exists p1 w1,
    while_body fn g endtime sign p w d
      = (Continue, dt_remaining endtime (set_state Repeat p1),
         set_state Repeat p1, w1) /\
    p1 = (fn p g (p_time p) (num_mul sign d) w).1.2.
Proof.
  intros Hr.
  destruct (repeat_call fn p g (p_time p) (num_mul sign d) w Hr)
    as (p1 & w1 & Hcall & Hp1).
  exists p1, w1. split; [|done].
  unfold while_body, try_pyfunc. by rewrite Hcall.
Qed.

Lemma repeat_keeps_time fuel fn g endtime sign p w d p' w' :
  always_repeats fn -> keeps_time fn ->
  while_dt_pos fuel fn g endtime sign p w d = Finished (p', w') ->
  p_time p' = p_time p.
Proof.
  intros Hr Ht. revert p w d.
  induction fuel as [|fuel IH]; intros p w d; simpl.
  - destruct (gt0 d); [done|]. by intros [= <- <-].
  - destruct (gt0 d); [|by intros [= <- <-]].
    destruct (repeat_body fn g endtime sign p w d Hr) as (p1 & w1 & -> & Hp1).
    intros Hrun. apply IH in Hrun. rewrite Hrun. simpl.
    rewrite Hp1. apply Ht.
Qed.

Lemma repeat_diverges fuel fn g endtime sign p w :
  always_repeats fn -> keeps_time fn -> keeps_dt fn ->
  time_remaining endtime p ->
  while_dt_pos fuel fn g endtime sign p w (dt_remaining endtime p) = OutOfFuel.
Proof.
  intros Hr Ht Hd. revert p w.
  induction fuel as [|fuel IH]; intros p w Hrem; unfold time_remaining in Hrem.
  - simpl. by rewrite Hrem.
  - rewrite while_dt_pos_step by done.
    destruct (repeat_body fn g endtime sign p w (dt_remaining endtime p) Hr)
      as (p1 & w1 & -> & Hp1).
    assert (dt_remaining endtime (set_state Repeat p1) = dt_remaining endtime p)
      as Hsame.
    { unfold dt_remaining. simpl. rewrite Hp1. by rewrite Ht, Hd. }
    apply IH. unfold time_remaining. by rewrite Hsame.
Qed.

Lemma for_particles_repeat_diverges fuel fn g endtime sign ps w :
  always_repeats fn -> keeps_time fn -> keeps_dt fn ->
  Exists (time_remaining endtime) ps ->
  for_particles fuel fn g endtime sign ps w = OutOfFuel.
Proof.
  intros Hr Ht Hd Hex. revert w.
  induction Hex as [p ps Hp|p ps _ IH]; intros w; simpl.
  - by rewrite repeat_diverges.
  - destruct (while_dt_pos fuel fn g endtime sign p w (dt_remaining endtime p))
      as [[p' w']|e [p' w']|] eqn:Hrun; [|by apply while_dt_pos_never_raises in Hrun|done].
    by rewrite IH.
Qed.

Lemma execute_repeat_diverges fuel (self : Kernel T) pset endtime dt recovery w :
  ParticleType.uses_jit (ptype self) = false ->
  always_repeats (pyfunc self) -> keeps_time (pyfunc self) ->
  keeps_dt (pyfunc self) ->
  Exists (time_remaining endtime) (particles pset) ->
  execute fuel self pset endtime dt recovery w = OutOfFuel.
Proof.
  intros Hjit Hr Ht Hd Hex. unfold execute, core_loop, execute_python.
  rewrite Hjit. by rewrite for_particles_repeat_diverges.
Qed.

(** C2 (as amended): for a particle whose kernel returns [Repeat] on every
    invocation and does not itself write the particle's time, the executor
    never advances the time: whenever the particle's time loop ends, the
    time attribute has its value at entry.  The loop ends at once when
    [min(|p.dt|, |endtime - p.time|)] is not positive at entry; when it is
    positive and the kernel leaves [p.dt] alone as well, the loop never
    ends and [Kernel.execute] on the interpreted path does not return. *)
Theorem repeat_kernel_never_advances
    (self : Kernel T) (endtime dt : T) :
  always_repeats (pyfunc self) -> keeps_time (pyfunc self) ->
  (forall fuel g p w p' w',
     while_dt_pos fuel (pyfunc self) g endtime (sign_of dt) p w
       (dt_remaining endtime p) = Finished (p', w') ->
     p_time p' = p_time p) /\
  (forall fuel g p w,
     ~ time_remaining endtime p ->
     while_dt_pos fuel (pyfunc self) g endtime (sign_of dt) p w
       (dt_remaining endtime p) = Finished (p, w)) /\
  (keeps_dt (pyfunc self) ->
   ParticleType.uses_jit (ptype self) = false ->
   forall pset recovery w,
     Exists (time_remaining endtime) (particles pset) ->
     forall fuel, execute fuel self pset endtime dt recovery w = OutOfFuel).
Proof.
  intros Hr Ht. split; [|split].
  - intros fuel g p w p' w'. by apply repeat_keeps_time.
  - intros fuel g p w Hrem. apply while_dt_pos_exit.
    unfold time_remaining in Hrem. by destruct (gt0 (dt_remaining endtime p)).
  - intros Hd Hjit pset recovery w Hex fuel. by apply execute_repeat_diverges.
Qed.
(** ** The recovery loop *)

Lemma core_loop_mono fuel fuel' (self : Kernel T) pset endtime dt w r :
  fuel <= fuel' ->
  core_loop fuel self pset endtime dt w = r -> r <> OutOfFuel ->
  core_loop fuel' self pset endtime dt w = r.
Proof.
  intros Hle. unfold core_loop, execute_python.
  destruct (ParticleType.uses_jit (ptype self)); [done|].
  destruct (for_particles fuel (pyfunc self) (pset_grid pset) endtime
              (sign_of dt) (particles pset) w) as [[ps1 w1]|e [ps1 w1]|] eqn:Hfor.
  - by rewrite (for_particles_mono _ _ _ _ _ _ _ _ _ Hle Hfor).
  - by apply for_particles_never_raises in Hfor.
  - congruence.
Qed.

Lemma recovery_round_mono fuel fuel' (self : Kernel T) rmap endtime dt pset w r :
  fuel <= fuel' ->
  recovery_round fuel self rmap endtime dt pset w = r -> r <> OutOfFuel ->
  recovery_round fuel' self rmap endtime dt pset w = r.
Proof.
  intros Hle. unfold recovery_round.
  destruct (apply_recovery rmap (error_particles (particles pset))
              (particles pset) w) as [[ps1 w1]|e [ps1 w1]|]; [|done..].
  by apply core_loop_mono.
Qed.

(** A pass of the recovery loop that changes nothing is repeated for as
    long as there is budget. *)
Lemma recovery_while_fixed_point rounds fuel (self : Kernel T) rmap endtime dt
    pset w :
  error_particles (particles pset) <> [] ->
  recovery_round fuel self rmap endtime dt pset w = Finished (pset, w) ->
  recovery_while rounds fuel self rmap endtime dt pset w = OutOfFuel.
Proof.
  intros Herr Hround. induction rounds as [|rounds IH]; simpl.
  - by destruct (error_particles (particles pset)).
  - destruct (error_particles (particles pset)); [done|]. by rewrite Hround.
Qed.

Lemma recovery_while_stuck rounds fuel (self : Kernel T) rmap endtime dt pset w :
  error_particles (particles pset) <> [] ->
  recovery_round fuel self rmap endtime dt pset w = OutOfFuel ->
  recovery_while rounds fuel self rmap endtime dt pset w = OutOfFuel.
Proof.
  intros Herr Hround. destruct rounds as [|rounds]; simpl.
  - by destruct (error_particles (particles pset)).
  - destruct (error_particles (particles pset)); [done|]. by rewrite Hround.
Qed.

Lemma execute_fixed_point_diverges n fuel (self : Kernel T) pset endtime dt
    recovery w pset1 w1 :
  core_loop n self pset endtime dt w = Finished (pset1, w1) ->
  let pset2 :=
    mkParticleSet (remove_deleted (particles pset1)) (pset_grid pset1) in
  error_particles (particles pset2) <> [] ->
  recovery_round n self (build_recovery_map recovery) endtime dt pset2 w1
    = Finished (pset2, w1) ->
  execute fuel self pset endtime dt recovery w = OutOfFuel.
Proof.
  intros Hcore pset2 Herr Hround. unfold execute.
  destruct (core_loop fuel self pset endtime dt w) as [[q wq]|e s|] eqn:Hc;
    [| |done].
  - assert (q = pset1 /\ wq = w1) as [-> ->].
    { destruct (Nat.le_ge_cases fuel n) as [Hle|Hle].
      - rewrite (core_loop_mono _ _ _ _ _ _ _ _ Hle Hc) in Hcore by done.
        by injection Hcore.
      - rewrite (core_loop_mono _ _ _ _ _ _ _ _ Hle Hcore) in Hc by done.
        by injection Hc. }
    fold pset2.
    destruct (recovery_round fuel self (build_recovery_map recovery) endtime dt
                pset2 w1) as [[q wq]|e s|] eqn:Hr.
    + apply recovery_while_fixed_point; [done|]. rewrite Hr.
      destruct (Nat.le_ge_cases fuel n) as [Hle|Hle].
      * rewrite (recovery_round_mono _ _ _ _ _ _ _ _ _ Hle Hr) in Hround by done.
        done.
      * rewrite (recovery_round_mono _ _ _ _ _ _ _ _ _ Hle Hround) in Hr by done.
        done.
    + exfalso. destruct (Nat.le_ge_cases fuel n) as [Hle|Hle].
      * by rewrite (recovery_round_mono _ _ _ _ _ _ _ _ _ Hle Hr) in Hround.
      * by rewrite (recovery_round_mono _ _ _ _ _ _ _ _ _ Hle Hround) in Hr.
    + by apply recovery_while_stuck.
  - exfalso. destruct (Nat.le_ge_cases fuel n) as [Hle|Hle].
    + by rewrite (core_loop_mono _ _ _ _ _ _ _ _ Hle Hc) in Hcore.
    + by rewrite (core_loop_mono _ _ _ _ _ _ _ _ Hle Hcore) in Hc.
Qed.

(** C5 (as amended): the executor has no fixed-point detection.  When the
    error set is not empty and one pass of the recovery loop (recovery
    kernels, removal of [Delete] particles, re-run of the core loop) leaves
    the particle set and the world as they were, the loop repeats that pass
    without end: [Kernel.execute] neither returns nor raises. *)
Theorem recovery_fixed_point_is_not_detected
    (self : Kernel T) pset endtime dt recovery w n pset1 w1 :
  core_loop n self pset endtime dt w = Finished (pset1, w1) ->
  let pset2 :=
    mkParticleSet (remove_deleted (particles pset1)) (pset_grid pset1) in
  error_particles (particles pset2) <> [] ->
  recovery_round n self (build_recovery_map recovery) endtime dt pset2 w1
    = Finished (pset2, w1) ->
  (forall rounds,
     recovery_while rounds n self (build_recovery_map recovery) endtime dt
       pset2 w1 = OutOfFuel) /\
  (forall fuel, execute fuel self pset endtime dt recovery w = OutOfFuel).
Proof.
  intros Hcore pset2 Herr Hround. split.
  - intros rounds. by apply recovery_while_fixed_point.
  - intros fuel. by eapply execute_fixed_point_diverges.
Qed.

Lemma enumerate_where_nil sel i (ps : list (Particle T)) :
  enumerate_where sel i ps = [] <-> Forall (fun p => sel p = false) ps.
Proof.
  revert i. induction ps as [|p ps IH]; intros i; simpl.
  - split; [constructor|done].
  - destruct (sel p) eqn:Hp.
    + split; [done|]. intros Hall. apply Forall_cons in Hall as [Hp' _].
      congruence.
    + rewrite IH. split; [by constructor|]. by intros [_ ?]%Forall_cons.
Qed.

Lemma threw_error_false p : threw_error p = false <-> live p.
Proof.
  unfold threw_error, live. rewrite negb_false_iff, bool_decide_eq_true.
  rewrite !elem_of_cons, elem_of_nil. tauto.
Qed.

Lemma threw_error_true p : threw_error p = true <-> in_err_set p.
Proof.
  unfold threw_error, in_err_set. rewrite negb_true_iff, bool_decide_eq_false.
  rewrite !elem_of_cons, elem_of_nil. tauto.
Qed.

Lemma error_particles_nil (ps : list (Particle T)) :
  error_particles ps = [] <-> Forall live ps.
Proof.
  unfold error_particles. rewrite enumerate_where_nil.
  apply Forall_proper; [|done]. intros p. apply threw_error_false.
Qed.

Lemma recovery_while_live rounds fuel (self : Kernel T) rmap endtime dt pset w
    pset' w' :
  recovery_while rounds fuel self rmap endtime dt pset w = Finished (pset', w') ->
  Forall live (particles pset').
Proof.
  revert pset w. induction rounds as [|rounds IH]; intros pset w; simpl.
  - destruct (error_particles (particles pset)) eqn:Herr; [|done].
    intros [= <- <-]. by apply error_particles_nil.
  - destruct (error_particles (particles pset)) eqn:Herr.
    + intros [= <- <-]. by apply error_particles_nil.
    + destruct (recovery_round fuel self rmap endtime dt pset w)
        as [[q wq]|e s|]; [|done..].
      apply IH.
Qed.

(** C10: whenever [Kernel.execute] returns normally, every particle still
    in the set has state [Success] or [Repeat]; none with state [Delete],
    [ErrorOutOfBounds] or [Error] is left. *)
Theorem execute_leaves_live_particles
    fuel (self : Kernel T) pset endtime dt recovery w pset' w' :
  execute fuel self pset endtime dt recovery w = Finished (pset', w') ->
  Forall (fun p => p_state p = Success \/ p_state p = Repeat) (particles pset')
  /\ Forall (fun p => p_state p <> Delete /\ p_state p <> ErrorOutOfBounds
                      /\ p_state p <> Error) (particles pset').
Proof.
  unfold execute.
  destruct (core_loop fuel self pset endtime dt w) as [[q wq]|e s|]; [|done..].
  intros Hloop. apply recovery_while_live in Hloop. split; [done|].
  eapply Forall_impl; [exact Hloop|]. intros p [-> | ->]; done.
Qed.
(** ** The code's references and indices against the prose *)

Lemma enumerate_where_ge sel i (ps : list (Particle T)) j :
  j ∈ enumerate_where sel i ps -> i <= j.
Proof.
  revert i. induction ps as [|p ps IH]; intros i; simpl.
  - by intros ?%elem_of_nil.
  - destruct (sel p).
    + intros [->|Hin]%elem_of_cons; [lia|]. apply IH in Hin. lia.
    + intros Hin. apply IH in Hin. lia.
Qed.

Lemma pset_remove_enumerated sel pre i (ps : list (Particle T)) :
  Forall (fun j => j < i) pre ->
  pset_remove (pre ++ enumerate_where sel i ps) i ps
    = filter (fun p => sel p = false) ps.
Proof.
  revert pre i. induction ps as [|p ps IH]; intros pre i Hpre; [done|].
  simpl. destruct (sel p) eqn:Hp.
  - rewrite bool_decide_eq_true_2 by (apply elem_of_app; right; left).
    rewrite filter_cons_False by congruence.
    rewrite cons_middle, (assoc_L (++)). apply IH.
    apply Forall_app. split.
    + eapply Forall_impl; [exact Hpre|]. simpl. lia.
    + apply Forall_singleton. lia.
  - rewrite bool_decide_eq_false_2.
    + rewrite filter_cons_True by done. f_equal. apply IH.
      eapply Forall_impl; [exact Hpre|]. simpl. lia.
    + intros [Hin|Hin]%elem_of_app.
      * rewrite Forall_forall in Hpre. apply Hpre in Hin. lia.
      * apply enumerate_where_ge in Hin. lia.
Qed.

Lemma remove_deleted_filter (ps : list (Particle T)) :
  remove_deleted ps = spec_remove_deleted ps.
Proof.
  unfold remove_deleted, spec_remove_deleted.
  pose proof (pset_remove_enumerated signalled_deletion [] 0 ps) as Hrm.
  simpl in Hrm. rewrite Hrm by constructor.
  apply list_filter_iff. intros p. unfold signalled_deletion.
  rewrite bool_decide_eq_false, list_elem_of_singleton. done.
Qed.

Lemma apply_recovery_on_references rmap pre (ps : list (Particle T)) w :
  apply_recovery rmap (enumerate_where threw_error (length pre) ps)
    (pre ++ ps) w =
  match spec_recover rmap ps w with
  | Finished (ps', w') => Finished (pre ++ ps', w')
  | Propagated e (ps', w') => Propagated e (pre ++ ps', w')
  | OutOfFuel => OutOfFuel
  end.
Proof.
  revert pre w. induction ps as [|p ps IH]; intros pre w; [done|].
  simpl. destruct (threw_error p) eqn:Hp.
  - rewrite decide_True by by apply threw_error_true.
    simpl. rewrite list_lookup_middle by done.
    destruct (rmap !! p_state p) as [handler|]; [|done].
    destruct (handler (set_state Success p) w) as [[[e|] p'] w'].
    + rewrite insert_app_r_alt by done. by rewrite Nat.sub_diag.
    + rewrite insert_app_r_alt by done. rewrite Nat.sub_diag. simpl.
      specialize (IH (pre ++ [p']) w'). rewrite length_app in IH. simpl in IH.
      rewrite Nat.add_1_r, <-(assoc_L (++)) in IH. simpl in IH. rewrite IH.
      destruct (spec_recover rmap ps w') as [[ps' w'']|e [ps' w'']|]; [| |done].
      * by rewrite <-(assoc_L (++)).
      * by rewrite <-(assoc_L (++)).
  - rewrite decide_False by (rewrite <-threw_error_true; congruence).
    specialize (IH (pre ++ [p]) w). rewrite length_app in IH. simpl in IH.
    rewrite Nat.add_1_r, <-(assoc_L (++)) in IH. simpl in IH. rewrite IH.
    destruct (spec_recover rmap ps w) as [[ps' w'']|e [ps' w'']|]; [| |done].
    + by rewrite <-(assoc_L (++)).
    + by rewrite <-(assoc_L (++)).
Qed.

Lemma err_set_empty (ps : list (Particle T)) :
  error_particles ps = [] <-> ~ Exists in_err_set ps.
Proof.
  rewrite error_particles_nil, <-Forall_Exists_neg.
  apply Forall_proper; [|done]. intros p. unfold live, in_err_set.
  destruct (p_state p); intuition congruence.
Qed.

Lemma recovery_while_follows_spec rounds fuel (self : Kernel T) rmap endtime dt
    pset w :
  recovery_while rounds fuel self rmap endtime dt pset w
    = spec_recovery_steps rounds fuel self rmap endtime dt pset w.
Proof.
  revert pset w. induction rounds as [|rounds IH]; intros pset w; simpl.
  - destruct (error_particles (particles pset)) eqn:Herr.
    + apply err_set_empty in Herr. by rewrite decide_False.
    + rewrite decide_True; [done|].
      destruct (decide (Exists in_err_set (particles pset))) as [|Hno]; [done|].
      apply err_set_empty in Hno. congruence.
  - destruct (error_particles (particles pset)) eqn:Herr.
    + apply err_set_empty in Herr. by rewrite decide_False.
    + rewrite decide_True.
      2:{ destruct (decide (Exists in_err_set (particles pset))) as [|Hno];
            [done|]. apply err_set_empty in Hno. congruence. }
      unfold recovery_round. rewrite Herr. rewrite <-Herr.
      pose proof (apply_recovery_on_references rmap [] (particles pset) w)
        as Hrec. simpl in Hrec. unfold error_particles. rewrite Hrec.
      destruct (spec_recover rmap (particles pset) w)
        as [[ps1 w1]|e [ps1 w1]|]; [|done..].
      rewrite remove_deleted_filter.
      destruct (core_loop fuel self
                  {| particles := spec_remove_deleted ps1;
                     pset_grid := pset_grid pset |} endtime dt w1)
        as [[q wq]|e s|]; [|done..].
      apply IH.
Qed.

(** C3: after the core loop, [Kernel.execute] removes every particle whose
    state is [Delete], collects the particles whose state is neither
    [Success] nor [Repeat], and while that set is not empty it looks up
    [recovery_map[p.state]] for each of them, sets [p.state = Success],
    invokes the recovery kernel on [p], then removes [Delete] particles
    again, re-runs the core loop and recomputes the error set.  The code,
    with its index lists and object references, computes what these steps
    describe. *)
Theorem execute_follows_recovery_steps
    fuel (self : Kernel T) pset endtime dt recovery w :
  execute fuel self pset endtime dt recovery w
    = spec_execute fuel self pset endtime dt recovery w.
Proof.
  unfold execute, spec_execute.
  destruct (core_loop fuel self pset endtime dt w) as [[pset1 w1]|e s|];
    [|done..].
  rewrite remove_deleted_filter, recovery_while_follows_spec.
  by destruct recovery.
Qed.
(** ** Concatenation of kernels *)

Lemma append_cons a (s1 s2 : string) :
  String a s1 +:+ s2 = String a (s1 +:+ s2).
Proof. reflexivity. Qed.

Lemma append_assoc (s1 s2 s3 : string) :
  (s1 +:+ s2) +:+ s3 = s1 +:+ s2 +:+ s3.
Proof.
  induction s1 as [|a s1 IH]; [done|]. rewrite !append_cons. by rewrite IH.
Qed.

Lemma append_nonempty (s1 s2 : string) : s1 <> "" -> s1 +:+ s2 <> "".
Proof. destruct s1; [done|]. by rewrite append_cons. Qed.

Lemma app_nonempty {A} (l1 l2 : list A) : l1 <> [] -> l1 ++ l2 <> [].
Proof. by destruct l1. Qed.

Lemma str_truthy (s : string) : s <> "" -> str_falsy s = false.
Proof. by destruct s. Qed.

Lemma list_truthy {A} (l : list A) : l <> [] -> list_falsy l = false.
Proof. by destruct l. Qed.

(** What [merge] hands to the constructor, and what the constructor makes
    of it when no fallback on [pyfunc] is needed. *)
Lemma merge_some (A B : Kernel T) :
  funcname A +:+ funcname B <> "" ->
  funccode A +:+ funccode B <> "" ->
  funcvars A ++ funcvars B <> [] ->
  let fname := funcname A +:+ funcname B in
  let ast :=
    mkFunctionDef fname (fd_args (py_ast A))
      (fd_body (py_ast A) ++ fd_body (py_ast B)) [] 1 0 in
  merge A B =
    Some (mkKernel (grid A) (ptype A) fname (funcvars A ++ funcvars B)
            (funccode A +:+ funccode B) ast (exec_ast ast fname)
            (ParticleType.name (ptype A) +:+ fname)
            (if ParticleType.uses_jit (ptype A)
             then Some (generate_jit (grid A) (ptype A) fname
                          (ParticleType.name (ptype A) +:+ fname) ast
                          (funcvars A ++ funcvars B))
             else None)).
Proof.
  intros Hn Hc Hv. unfold merge, __init__, py_or.
  rewrite !str_truthy, list_truthy by done. reflexivity.
Qed.

Lemma merge_wf (A B K : Kernel T) :
  kernel_wf A -> merge A B = Some K -> kernel_wf K.
Proof.
  intros (Hn & Hc & Hv).
  rewrite merge_some
    by (by apply append_nonempty || by apply app_nonempty).
  intros [= <-]. repeat split; simpl.
  - by apply append_nonempty.
  - by apply append_nonempty.
  - by apply app_nonempty.
Qed.

(** C7 (as amended): for kernels [A] and [B], [A] having the non-empty
    function name, source and variable list of a kernel built from a
    kernel function, [A + B] produces a new Kernel whose function name is
    [A]'s function name followed by [B]'s, whose name is the particle
    type's name followed by that function name, whose body is [A]'s body
    statements followed by [B]'s under one synthetic function header that
    reuses [A]'s parameter list, and whose recorded source is [A]'s source
    followed by [B]'s. *)
Theorem add_concatenates (A B : Kernel T) :
  kernel_wf A ->
  exists K,
    __add__ A (inl B) = Some K /\
    funcname K = funcname A +:+ funcname B /\
    name K = ParticleType.name (ptype A) +:+ funcname A +:+ funcname B /\
    py_ast K =
      mkFunctionDef (funcname A +:+ funcname B) (fd_args (py_ast A))
        (fd_body (py_ast A) ++ fd_body (py_ast B)) [] 1 0 /\
    funccode K = funccode A +:+ funccode B /\
    funcvars K = funcvars A ++ funcvars B /\
    grid K = grid A /\ ptype K = ptype A.
Proof.
  intros (Hn & Hc & Hv). eexists. split.
  - simpl. apply merge_some.
    + by apply append_nonempty.
    + by apply append_nonempty.
    + by apply app_nonempty.
  - done.
Qed.

Lemma merge_assoc_wf (A B C : Kernel T) :
  kernel_wf A -> kernel_wf B -> kernel_wf C ->
  exists K,
    (AB ← merge A B; merge AB C) = Some K /\
    (BC ← merge B C; merge A BC) = Some K.
Proof.
  intros (HnA & HcA & HvA) (HnB & HcB & HvB) (HnC & HcC & HvC).
  rewrite (merge_some A B)
    by (by apply append_nonempty || by apply app_nonempty).
  rewrite (merge_some B C)
    by (by apply append_nonempty || by apply app_nonempty).
  simpl.
  rewrite !merge_some; simpl;
    try (by do 2 apply append_nonempty); try (by do 2 apply app_nonempty);
    try (by apply append_nonempty); try (by apply app_nonempty).
  eexists. split; [reflexivity|].
  by rewrite !append_assoc, <-!(assoc_L (++)).
Qed.

(** C6: kernel concatenation is associative.  For kernels [A], [B], [C]
    (each with the non-empty function name, source and variable list of a
    kernel built from a kernel function), [(A+B)+C] and [A+(B+C)] are both
    produced, with identical name, body, recorded source and variable
    list, and executing them on any particle set gives equal results. *)
Theorem concatenation_is_associative (A B C : Kernel T) :
  kernel_wf A -> kernel_wf B -> kernel_wf C ->
  exists L R,
    (AB ← __add__ A (inl B); __add__ AB (inl C)) = Some L /\
    (BC ← __add__ B (inl C); __add__ A (inl BC)) = Some R /\
    name L = name R /\
    funcname L = funcname R /\
    fd_body (py_ast L) = fd_body (py_ast R) /\
    py_ast L = py_ast R /\
    funccode L = funccode R /\
    funcvars L = funcvars R /\
    forall fuel pset endtime dt recovery w,
      execute fuel L pset endtime dt recovery w
        = execute fuel R pset endtime dt recovery w.
Proof.
  intros HA HB HC.
  destruct (merge_assoc_wf A B C HA HB HC) as (K & Hl & Hr).
  exists K, K. split; [exact Hl|]. split; [exact Hr|]. done.
Qed.

(** ** The compile-cache key *)

(** The constructor stores the JIT data exactly for particle types that
    use the JIT, and files them under the cache key. *)
Lemma init_jit_data g pt pf nm fc ast fv (K : Kernel T) :
  __init__ g pt pf nm fc ast fv = Some K ->
  ParticleType.uses_jit pt = true ->
  exists jd,
    jit K = Some jd /\
    lib_file jd
      = cache_path (cache_key_of (name K) (ptype K) (field_args jd)) +:+ ".so".
Proof.
  unfold __init__. intros Hinit Hjit.
  destruct (py_or str_falsy nm (__name__ <$> pf)) as [fname|]; [|done].
  destruct (py_or list_falsy fv (co_varnames <$> pf)) as [fvars|]; [|done].
  destruct (py_or str_falsy fc (getsource <$> pf)) as [fcode|]; [|done].
  simpl in Hinit. injection Hinit as <-. rewrite Hjit. simpl.
  eexists. split; [reflexivity|]. unfold generate_jit.
  by destruct (KernelGenerator _ _ _ _) as [[kc fa] ca].
Qed.

Lemma no_cache_key_without_jit (self : Kernel T) :
  jit self = None -> _cache_key self = None.
Proof. intros Hjit. unfold _cache_key. by rewrite Hjit. Qed.

(** C9: for every JIT kernel the compile-cache key is the MD5 hex digest
    of the kernel name, followed by the particle type's cache key string,
    followed by the entries [field_name:unit_tag_class_name] of the fields
    the kernel references, joined with ["-"]. *)
Theorem cache_key_is_md5_of_name_ptype_fields (self : Kernel T) jd :
  jit self = Some jd ->
  _cache_key self =
    Some (md5_hexdigest
            (name self +:+ ParticleType._cache_key (ptype self) +:+
             String.concat "-"
               (map (fun '(field_name, field) =>
                       field_name +:+ ":" +:+ units_class_name field)
                  (field_args jd)))).
Proof.
  intros Hjit. unfold _cache_key, cache_key_of, field_keys. rewrite Hjit.
  simpl. do 5 f_equal. apply map_ext. by intros [field_name field].
Qed.
End Properties.

(** * Properties of [fix_indentation] *)
Section IndentationProperties.
Context `{WhiteSpace}.

Lemma split_lines_nonempty s : split_lines s <> [].
Proof.
  destruct s as [|c s]; simpl; [done|].
  destruct (Ascii.eqb c newline); [done|]. by destruct (split_lines s).
Qed.

Lemma concat_cons sep x y (ys : list string) :
  String.concat sep (x :: y :: ys) = x +:+ sep +:+ String.concat sep (y :: ys).
Proof. reflexivity. Qed.

Lemma join_split s : String.concat nl (split_lines s) = s.
Proof.
  induction s as [|c s IH]; [done|]. simpl.
  destruct (Ascii.eqb c newline) eqn:Hc.
  - apply Ascii.eqb_eq in Hc as ->.
    destruct (split_lines s) as [|l ls] eqn:Hs.
    + by apply split_lines_nonempty in Hs.
    + rewrite concat_cons, IH. reflexivity.
  - destruct (split_lines s) as [|l ls] eqn:Hs.
    + by apply split_lines_nonempty in Hs.
    + destruct ls as [|l' ls].
      * simpl in *. by rewrite IH.
      * rewrite concat_cons in *. by rewrite <-IH.
Qed.

Lemma newline_free_app s1 s2 :
  newline_free (s1 +:+ s2) = newline_free s1 && newline_free s2.
Proof.
  induction s1 as [|c s1 IH]; [done|].
  change (String c s1 +:+ s2) with (String c (s1 +:+ s2)). simpl.
  rewrite IH. by rewrite andb_assoc.
Qed.

Lemma split_line_then s rest :
  newline_free s = true ->
  split_lines (s +:+ nl +:+ rest) = s :: split_lines rest.
Proof.
  induction s as [|c s IH]; intros Hs.
  - reflexivity.
  - simpl in Hs. apply andb_true_iff in Hs as [Hc Hs].
    change (String c s +:+ nl +:+ rest) with (String c (s +:+ nl +:+ rest)).
    simpl. apply negb_true_iff in Hc. rewrite Hc. by rewrite IH.
Qed.

Lemma split_single s : newline_free s = true -> split_lines s = [s].
Proof.
  induction s as [|c s IH]; intros Hs; [done|].
  simpl in Hs. apply andb_true_iff in Hs as [Hc Hs]. simpl.
  apply negb_true_iff in Hc. rewrite Hc. by rewrite IH.
Qed.

Lemma split_lines_free s :
  Forall (fun l => newline_free l = true) (split_lines s).
Proof.
  induction s as [|c s IH]; simpl.
  - by repeat constructor.
  - destruct (Ascii.eqb c newline) eqn:Hc.
    + by constructor.
    + destruct (split_lines s) as [|l ls].
      * constructor; [simpl; by rewrite Hc|constructor].
      * apply Forall_cons in IH as [Hl Hls]. constructor; [|done].
        simpl. by rewrite Hc.
Qed.

Lemma split_join ls :
  ls <> [] -> Forall (fun l => newline_free l = true) ls ->
  split_lines (String.concat nl ls) = ls.
Proof.
  induction ls as [|l ls IH]; [done|]. intros _ Hall.
  apply Forall_cons in Hall as [Hl Hls].
  destruct ls as [|l' ls].
  - simpl. by apply split_single.
  - rewrite concat_cons, split_line_then by done. f_equal. by apply IH.
Qed.

Lemma strip_prefix_Some old s rest :
  strip_prefix old s = Some rest <-> s = old +:+ rest.
Proof.
  revert s. induction old as [|a old IH]; intros s; simpl.
  - split; [by intros [= ->]|by intros ->].
  - destruct s as [|b s].
    + split; [done|]. discriminate.
    + destruct (Ascii.eqb a b) eqn:Hab.
      * apply Ascii.eqb_eq in Hab as ->. rewrite IH.
        change (String b old +:+ rest) with (String b (old +:+ rest)).
        split; [by intros ->|by intros [= ->]].
      * split; [done|].
        change (String a old +:+ rest) with (String a (old +:+ rest)).
        intros [= -> _]. by rewrite Ascii.eqb_refl in Hab.
Qed.

Lemma replace_first_prefix old rest : replace_first old (old +:+ rest) = rest.
Proof.
  assert (strip_prefix old (old +:+ rest) = Some rest) as Hs
    by by apply strip_prefix_Some.
  destruct (old +:+ rest); simpl; by rewrite Hs.
Qed.

Lemma replace_first_free old s :
  newline_free s = true -> newline_free (replace_first old s) = true.
Proof.
  induction s as [|c s IH]; intros Hs.
  - simpl. destruct (strip_prefix old "") as [r|] eqn:Hr; [|done].
    apply strip_prefix_Some in Hr. 
    assert (newline_free (old +:+ r) = true) as Hf by by rewrite <-Hr.
    rewrite newline_free_app in Hf. by apply andb_true_iff in Hf as [_ ?].
  - simpl. destruct (strip_prefix old (String c s)) as [r|] eqn:Hr.
    + apply strip_prefix_Some in Hr.
      assert (newline_free (old +:+ r) = true) as Hf by by rewrite <-Hr.
      rewrite newline_free_app in Hf. by apply andb_true_iff in Hf as [_ ?].
    + simpl in *. apply andb_true_iff in Hs as [Hc Hs]. rewrite Hc. by apply IH.
Qed.

Lemma leading_space_split s :
  exists rest, s = leading_space s +:+ rest /\ leading_space rest = "".
Proof.
  induction s as [|c s (rest & Hs & Hrest)].
  - by exists "".
  - simpl. destruct (is_space c) eqn:Hc.
    + exists rest. split; [|done].
      change (String c (leading_space s) +:+ rest)
        with (String c (leading_space s +:+ rest)). by rewrite <-Hs.
    + exists (String c s). split; [done|]. simpl. by rewrite Hc.
Qed.

Lemma leading_space_app ind rest :
  leading_space ind = ind -> leading_space rest = "" ->
  leading_space (ind +:+ rest) = ind.
Proof.
  intros Hind Hrest. induction ind as [|c ind IH]; [done|].
  change (String c ind +:+ rest) with (String c (ind +:+ rest)).
  simpl in *. destruct (is_space c); [|done].
  injection Hind as Hind. by rewrite IH.
Qed.

Lemma re_indent_match_None s : re_indent_match s = None <-> leading_space s = "".
Proof. unfold re_indent_match. by destruct (leading_space s). Qed.

Lemma re_indent_match_Some s ind :
  re_indent_match s = Some ind <-> leading_space s = ind /\ ind <> "".
Proof.
  unfold re_indent_match. destruct (leading_space s) as [|c ws].
  - split; [done|]. by intros [<- ?].
  - split; [by intros [= <-]|by intros [-> _]].
Qed.

Lemma fix_indentation_lines s :
  split_lines (fix_indentation s) =
    match re_indent_match (hd "" (split_lines s)) with
    | Some ind => map (replace_first ind) (split_lines s)
    | None => split_lines s
    end.
Proof.
  unfold fix_indentation.
  pose proof (split_lines_nonempty s) as Hne.
  pose proof (split_lines_free s) as Hfree.
  destruct (split_lines s) as [|first rest] eqn:Hs; [done|]. simpl hd.
  destruct (re_indent_match first) as [ind|].
  - apply split_join; [done|].
    apply Forall_fmap. eapply Forall_impl; [exact Hfree|].
    intros l Hl. simpl. by apply replace_first_free.
  - by apply split_join.
Qed.

(** X1: a text whose first character is not whitespace, or is a line
    break, or that is empty, comes back from [fix_indentation]
    unchanged. *)
Theorem fix_indentation_unindented s :
  match s with
  | EmptyString => True
  | String c _ => is_space c = false \/ c = newline
  end ->
  fix_indentation s = s.
Proof.
  intros Hs. unfold fix_indentation.
  assert (match split_lines s with
          | [] => None
          | first :: _ => re_indent_match first
          end = None) as ->; [|apply join_split].
  destruct s as [|c s]; [done|]. simpl.
  destruct (Ascii.eqb c newline) eqn:Hc; [done|].
  destruct Hs as [Hsp| ->]; [|by rewrite Ascii.eqb_refl in Hc].
  destruct (split_lines s); apply re_indent_match_None; simpl; by rewrite Hsp.
Qed.

Lemma fix_indentation_flush s :
  leading_space (hd "" (split_lines (fix_indentation s))) = "".
Proof.
  rewrite fix_indentation_lines.
  pose proof (split_lines_nonempty s) as Hne.
  destruct (split_lines s) as [|first rest]; [done|]. simpl hd.
  destruct (re_indent_match first) as [ind|] eqn:Hm.
  - simpl. apply re_indent_match_Some in Hm as [<- _].
    destruct (leading_space_split first) as (r & Hfirst & Hr).
    rewrite Hfirst at 2. by rewrite replace_first_prefix.
  - by apply re_indent_match_None.
Qed.

(** X2: [fix_indentation] keeps the number of lines, and the first line
    of its result does not begin with whitespace. *)
Theorem fix_indentation_first_line s :
  length (split_lines (fix_indentation s)) = length (split_lines s) /\
  leading_space (hd "" (split_lines (fix_indentation s))) = "".
Proof.
  split; [|apply fix_indentation_flush].
  rewrite fix_indentation_lines.
  destruct (re_indent_match (hd "" (split_lines s))); [|done].
  by rewrite length_fmap.
Qed.

(** X3: applying [fix_indentation] a second time changes nothing. *)
Theorem fix_indentation_idempotent s :
  fix_indentation (fix_indentation s) = fix_indentation s.
Proof.
  pose proof (fix_indentation_flush s) as Hflush.
  unfold fix_indentation at 1.
  assert (match split_lines (fix_indentation s) with
          | [] => None
          | first :: _ => re_indent_match first
          end = None) as ->; [|apply join_split].
  destruct (split_lines (fix_indentation s)); [done|].
  by apply re_indent_match_None.
Qed.

Lemma replace_first_indented ind (ls : list string) :
  map (replace_first ind) (map (fun l => ind +:+ l) ls) = ls.
Proof.
  induction ls as [|l ls IH]; [done|]. simpl.
  by rewrite replace_first_prefix, IH.
Qed.

(** X4: [fix_indentation] undoes a uniform indentation: when every line
    of a text whose first line is flush left is prefixed with the same
    non-empty run of whitespace, the result is the text itself. *)
Theorem fix_indentation_dedents ind first rest :
  ind <> "" -> leading_space ind = ind -> newline_free ind = true ->
  leading_space first = "" ->
  Forall (fun l => newline_free l = true) (first :: rest) ->
  fix_indentation
    (String.concat nl (map (fun l => ind +:+ l) (first :: rest)))
  = String.concat nl (first :: rest).
Proof.
  intros Hne Hws Hind Hfirst Hfree. unfold fix_indentation.
  rewrite split_join.
  - simpl.
    assert (re_indent_match (ind +:+ first) = Some ind) as ->.
    { apply re_indent_match_Some. split; [|done]. by apply leading_space_app. }
    by rewrite replace_first_prefix, replace_first_indented.
  - done.
  - apply Forall_fmap. eapply Forall_impl; [exact Hfree|].
    intros l Hl. simpl. rewrite newline_free_app. by rewrite Hind, Hl.
Qed.
End IndentationProperties.

(** * Further properties of the executor *)
Section ExecutorProperties.
Context {T : Type} `{PyNum T} `{Host} `{!Collaborators T}.

Implicit Types (p : Particle T) (w : World) (fn : PyCallable T).

Lemma pset_eta (pset : ParticleSet T) :
  mkParticleSet (particles pset) (pset_grid pset) = pset.
Proof. by destruct pset. Qed.

Lemma not_time_remaining endtime p :
  ~ time_remaining endtime p <-> gt0 (dt_remaining endtime p) = false.
Proof. unfold time_remaining. by destruct (gt0 (dt_remaining endtime p)). Qed.

Lemma for_particles_at_endtime fuel fn g endtime sign ps w :
  Forall (fun p => ~ time_remaining endtime p) ps ->
  for_particles fuel fn g endtime sign ps w = Finished (ps, w).
Proof.
  induction 1 as [|p ps Hp _ IH]; [done|]. simpl.
  rewrite while_dt_pos_exit by by apply not_time_remaining.
  by rewrite IH.
Qed.

(** X5: particles that have no time remaining are not touched by the
    interpreted core loop and the kernel is not called for them: on a set
    of such particles [execute_python] returns the set and the world as
    they are, whatever the kernel. *)
Theorem execute_python_skips_finished_particles
    fuel (self : Kernel T) pset endtime dt w :
  Forall (fun p => ~ time_remaining endtime p) (particles pset) ->
  execute_python fuel self pset endtime dt w = Finished (pset, w).
Proof.
  intros Hdone. unfold execute_python.
  rewrite for_particles_at_endtime by done. by rewrite pset_eta.
Qed.

Lemma while_dt_pos_exit_reason fuel fn g endtime sign p w d p' w' :
  while_dt_pos fuel fn g endtime sign p w d = Finished (p', w') ->
  (gt0 d = false /\ p' = p) \/ ~ time_remaining endtime p' \/ in_err_set p'.
Proof.
  revert p w d. induction fuel as [|fuel IH]; intros p w d.
  - simpl. destruct (gt0 d); [done|]. intros [= <- <-]. by left.
  - destruct (gt0 d) eqn:Hd.
    2:{ rewrite while_dt_pos_exit by done. intros [= <- <-]. by left. }
    rewrite while_dt_pos_step by done.
    destruct (while_body fn g endtime sign p w d) as [[[ctl d'] p''] w'']
      eqn:Hbody.
    unfold while_body in Hbody.
    destruct (try_pyfunc fn g p (num_mul sign d) w) as [[res p1] w1].
    destruct res as [[]|]; injection Hbody as <- <- <- <-.
    + intros Hrun. apply IH in Hrun as [[Hd' ->]|Hrun]; [|by right].
      right. left. by apply not_time_remaining.
    + intros Hrun. apply IH in Hrun as [[Hd' ->]|Hrun]; [|by right].
      right. left. by apply not_time_remaining.
    + intros [= <- <-]. right. right. by split.
    + intros [= <- <-]. right. right. by split.
    + intros [= <- <-]. right. right. by split.
    + intros Hrun. apply IH in Hrun as [[Hd' ->]|Hrun]; [|by right].
      right. left. by apply not_time_remaining.
Qed.

Lemma for_particles_postcondition fuel fn g endtime sign ps w ps' w' :
  for_particles fuel fn g endtime sign ps w = Finished (ps', w') ->
  length ps' = length ps /\
  Forall (fun p => ~ time_remaining endtime p \/ in_err_set p) ps'.
Proof.
  revert w ps'. induction ps as [|p ps IH]; intros w ps'; simpl.
  - intros [= <- <-]. by split.
  - destruct (while_dt_pos fuel fn g endtime sign p w (dt_remaining endtime p))
      as [[p1 w1]|e [p1 w1]|] eqn:Hp; [|done..].
    destruct (for_particles fuel fn g endtime sign ps w1)
      as [[ps1 w2]|e [ps1 w2]|] eqn:Hps; [|done..].
    intros [= <- <-]. apply IH in Hps as [Hlen Hall]. split.
    + simpl. by rewrite Hlen.
    + constructor; [|done].
      apply while_dt_pos_exit_reason in Hp as [[Hd ->]|Hp]; [|done].
      left. by apply not_time_remaining.
Qed.

(** X6: the interpreted core loop neither adds nor removes particles and
    leaves the set's grid alone; when it finishes, every particle either
    has no time remaining or is in a state other than [Success] and
    [Repeat]. *)
Theorem execute_python_postcondition
    fuel (self : Kernel T) pset endtime dt w pset' w' :
  execute_python fuel self pset endtime dt w = Finished (pset', w') ->
  length (particles pset') = length (particles pset) /\
  pset_grid pset' = pset_grid pset /\
  Forall (fun p => ~ time_remaining endtime p \/ in_err_set p)
    (particles pset').
Proof.
  unfold execute_python.
  destruct (for_particles fuel (pyfunc self) (pset_grid pset) endtime
              (sign_of dt) (particles pset) w)
    as [[ps1 w1]|e [ps1 w1]|] eqn:Hfor; [|done..].
  intros [= <- <-]. apply for_particles_postcondition in Hfor as [Hlen Hall].
  by repeat split.
Qed.

Lemma execute_python_exit_states fuel (self : Kernel T) pset endtime dt w
    pset' w' :
  execute_python fuel self pset endtime dt w = Finished (pset', w') ->
  Forall (fun p => ~ time_remaining endtime p \/ in_err_set p)
    (particles pset').
Proof.
  unfold execute_python.
  destruct (for_particles fuel (pyfunc self) (pset_grid pset) endtime
              (sign_of dt) (particles pset) w)
    as [[ps1 w1]|e [ps1 w1]|] eqn:Hfor; [|done..].
  intros [= <- <-]. by apply for_particles_postcondition in Hfor as [_ ?].
Qed.

Lemma recovery_while_keeps_postcondition rounds fuel (self : Kernel T) rmap
    endtime dt pset w pset' w' :
  ParticleType.uses_jit (ptype self) = false ->
  Forall (fun p => ~ time_remaining endtime p \/ in_err_set p)
    (particles pset) ->
  recovery_while rounds fuel self rmap endtime dt pset w
    = Finished (pset', w') ->
  Forall (fun p => ~ time_remaining endtime p \/ in_err_set p)
    (particles pset').
Proof.
  intros Hjit. revert pset w.
  induction rounds as [|rounds IH]; intros pset w Hall; simpl.
  - destruct (error_particles (particles pset)); [|done].
    by intros [= <- <-].
  - destruct (error_particles (particles pset)); [by intros [= <- <-]|].
    destruct (recovery_round fuel self rmap endtime dt pset w)
      as [[q wq]|e s|] eqn:Hround; [|done..].
    apply IH. unfold recovery_round in Hround.
    destruct (apply_recovery rmap _ (particles pset) w)
      as [[ps1 w1]|e [ps1 w1]|]; [|done..].
    unfold core_loop in Hround. rewrite Hjit in Hround.
    by apply execute_python_exit_states in Hround.
Qed.

(** X7: on the interpreted path, when [Kernel.execute] returns normally no
    particle left in the set has time remaining: for each of them
    [min(|p.dt|, |endtime - p.time|)] is not positive, and its state is
    [Success] or [Repeat]. *)
Theorem execute_returns_with_no_time_remaining
    fuel (self : Kernel T) pset endtime dt recovery w pset' w' :
  ParticleType.uses_jit (ptype self) = false ->
  execute fuel self pset endtime dt recovery w = Finished (pset', w') ->
  Forall (fun p => live p /\ ~ time_remaining endtime p) (particles pset').
Proof.
  intros Hjit. unfold execute.
  destruct (core_loop fuel self pset endtime dt w) as [[pset1 w1]|e s|] eqn:Hc;
    [|done..].
  intros Hloop. pose proof (recovery_while_live _ _ _ _ _ _ _ _ _ _ Hloop) as Hlive.
  apply recovery_while_keeps_postcondition in Hloop; [|done|].
  - apply Forall_and. split; [done|].
    rewrite Forall_forall in *. intros p Hp.
    destruct (Hloop p Hp) as [?|[Hs Hr]]; [done|].
    destruct (Hlive p Hp); congruence.
  - simpl. rewrite remove_deleted_filter. unfold spec_remove_deleted.
    unfold core_loop in Hc. rewrite Hjit in Hc.
    apply execute_python_exit_states in Hc as Hall.
    rewrite Forall_forall in *. intros p [_ Hp]%list_elem_of_filter. by apply Hall.
Qed.

(** X8: when the core loop leaves no particle in an error state, every
    particle being [Success], [Repeat] or [Delete], [Kernel.execute] returns
    after that single pass with the deleted particles removed; no recovery
    kernel runs and the recovery map is not consulted. *)
Theorem execute_without_errors
    fuel (self : Kernel T) pset endtime dt recovery w pset1 w1 :
  core_loop fuel self pset endtime dt w = Finished (pset1, w1) ->
  Forall (fun p => live p \/ p_state p = Delete) (particles pset1) ->
  execute fuel self pset endtime dt recovery w =
    Finished
      (mkParticleSet (filter (fun p => p_state p <> Delete) (particles pset1))
         (pset_grid pset1), w1).
Proof.
  intros Hcore Hall. unfold execute. rewrite Hcore.
  rewrite remove_deleted_filter. unfold spec_remove_deleted.
  assert (error_particles (filter (fun p => p_state p <> Delete)
                             (particles pset1)) = []) as Herr.
  { apply error_particles_nil. rewrite Forall_forall in *.
    intros p [Hnd Hp]%list_elem_of_filter. by destruct (Hall p Hp). }
  destruct fuel; simpl; by rewrite Herr.
Qed.
(** ** The recovery pass *)

Lemma spec_recover_lookup_miss rmap pre p rest w :
  Forall live pre -> in_err_set p -> rmap !! p_state p = None ->
  spec_recover rmap (pre ++ p :: rest) w
    = Propagated (KeyError (p_state p)) (pre ++ p :: rest, w).
Proof.
  intros Hpre Hp Hmiss.
  induction Hpre as [|q pre Hq _ IH]; cbn [spec_recover app].
  - rewrite decide_True by done. unfold RecoveryKernel in *. by rewrite Hmiss.
  - rewrite decide_False.
    + by rewrite IH.
    + intros [Hs Hr]. by destruct Hq.
Qed.

(** X9: in the recovery loop, when the first particle whose state is not
    [Success] or [Repeat] has a state without an entry in the recovery map,
    the pass raises [KeyError] for that state before any particle has been
    changed.  [Delete] is such a state too: the loop collects the error
    particles from the whole set, and a particle left in [Delete] by a
    re-run of the core loop is looked up like any other. *)
Theorem recovery_lookup_miss_raises
    rounds fuel (self : Kernel T) rmap endtime dt pset w pre p rest :
  particles pset = pre ++ p :: rest ->
  Forall live pre -> in_err_set p -> rmap !! p_state p = None ->
  recovery_while (S rounds) fuel self rmap endtime dt pset w
    = Propagated (KeyError (p_state p)) (pset, w).
Proof.
  intros Hps Hpre Hp Hmiss. rewrite recovery_while_follows_spec. simpl.
  rewrite decide_True.
  - rewrite Hps, spec_recover_lookup_miss by done.
    by rewrite <-Hps, pset_eta.
  - rewrite Hps. apply Exists_app. right. by left.
Qed.

(** X10: a recovery kernel passed to [execute] for an error code replaces
    the default for that code; for every other code the default stays;
    without overrides the map is the default map. *)
Theorem recovery_overrides_take_precedence
    (overrides : gmap ErrorCode (RecoveryKernel T)) (c : ErrorCode) :
  build_recovery_map (Some overrides) !! c =
    match overrides !! c with
    | Some handler => Some handler
    | None => recovery_base_map !! c
    end /\
  build_recovery_map None !! c = recovery_base_map !! c.
Proof.
  unfold build_recovery_map. rewrite !lookup_union, lookup_empty. split.
  - by destruct (overrides !! c), (recovery_base_map !! c).
  - by destruct (recovery_base_map !! c).
Qed.

Lemma enumerate_where_length sel i (ps : list (Particle T)) :
  length (enumerate_where sel i ps)
    + length (filter (fun p => sel p = false) ps) = length ps.
Proof.
  revert i. induction ps as [|p ps IH]; intros i; [done|]. simpl.
  destruct (sel p) eqn:Hp.
  - rewrite filter_cons_False by congruence. simpl. by rewrite IH.
  - rewrite filter_cons_True by done. simpl. rewrite <-(IH (S i)). lia.
Qed.

(** X11: [remove_deleted] keeps exactly the particles whose state is not
    [Delete], in their order, and the set shrinks by the number of indices
    it collected. *)
Theorem remove_deleted_keeps_the_others (ps : list (Particle T)) :
  remove_deleted ps `sublist_of` ps /\
  (forall p, p ∈ remove_deleted ps <-> p ∈ ps /\ p_state p <> Delete) /\
  length (remove_deleted ps)
    + length (enumerate_where signalled_deletion 0 ps) = length ps.
Proof.
  split; [|split].
  - rewrite remove_deleted_filter. apply sublist_filter.
  - intros p. rewrite remove_deleted_filter. unfold spec_remove_deleted.
    rewrite list_elem_of_filter. tauto.
  - unfold remove_deleted.
    pose proof (pset_remove_enumerated signalled_deletion [] 0 ps) as Hrm.
    simpl in Hrm. rewrite Hrm by constructor.
    pose proof (enumerate_where_length signalled_deletion 0 ps). lia.
Qed.

Lemma enumerate_where_elem sel i (ps : list (Particle T)) j :
  j ∈ enumerate_where sel i ps <->
  exists k p, j = i + k /\ ps !! k = Some p /\ sel p = true.
Proof.
  revert i. induction ps as [|p ps IH]; intros i; simpl.
  - rewrite elem_of_nil. split; [done|]. by intros (k & q & _ & ? & _).
  - assert (j ∈ enumerate_where sel (S i) ps <->
            exists k q, j = i + S k /\ ps !! k = Some q /\ sel q = true) as Htl.
    { rewrite IH. split; intros (k & q & -> & ?); exists k, q;
        (split; [lia|done]). }
    destruct (sel p) eqn:Hp.
    + rewrite elem_of_cons, Htl. split.
      * intros [->|(k & q & -> & Hk & Hq)].
        -- exists 0, p. split; [lia|done].
        -- by exists (S k), q.
      * intros ([|k] & q & -> & Hk & Hq).
        -- left. lia.
        -- right. by exists k, q.
    + rewrite Htl. split.
      * intros (k & q & -> & Hk & Hq). by exists (S k), q.
      * intros ([|k] & q & -> & Hk & Hq).
        -- simpl in Hk. congruence.
        -- by exists k, q.
Qed.

Lemma enumerate_where_NoDup sel i (ps : list (Particle T)) :
  NoDup (enumerate_where sel i ps).
Proof.
  revert i. induction ps as [|p ps IH]; intros i; simpl; [constructor|].
  destruct (sel p); [|done]. constructor; [|done].
  intros Hin%enumerate_where_ge. lia.
Qed.

(** X12: the references the executor collects in [error_particles] are the
    positions of the particles whose state is neither [Success] nor
    [Repeat], each once: every one of them points at a particle of the
    set. *)
Theorem error_particles_point_into_the_set (ps : list (Particle T)) :
  NoDup (error_particles ps) /\
  forall i,
    i ∈ error_particles ps <-> exists p, ps !! i = Some p /\ in_err_set p.
Proof.
  split; [apply enumerate_where_NoDup|].
  intros i. unfold error_particles. rewrite enumerate_where_elem. split.
  - intros (k & p & -> & Hk & Hp). exists p. by rewrite <-threw_error_true.
  - intros (p & Hi & Hp). exists i, p. by rewrite threw_error_true.
Qed.

Lemma spec_recover_pointwise rmap (ps : list (Particle T)) w ps' w' :
  spec_recover rmap ps w = Finished (ps', w') ->
  Forall2
    (fun p p' =>
       (live p /\ p' = p) \/
       (in_err_set p /\
        exists handler w0 w1,
          rmap !! p_state p = Some handler /\
          handler (set_state Success p) w0 = (None, p', w1)))
    ps ps'.
Proof.
  revert w ps'. induction ps as [|p ps IH]; intros w ps'; simpl.
  - intros [= <- <-]. constructor.
  - destruct (decide (in_err_set p)) as [Hp|Hp].
    + destruct (rmap !! p_state p) as [handler|] eqn:Hh; [|done].
      destruct (handler (set_state Success p) w) as [[[e|] p1] w1] eqn:Hcall;
        [done|].
      destruct (spec_recover rmap ps w1) as [[ps1 w2]|e [ps1 w2]|] eqn:Hrec;
        [|done..].
      intros [= <- <-]. constructor; [|by eapply IH].
      right. split; [done|]. by exists handler, w, w1.
    + destruct (spec_recover rmap ps w) as [[ps1 w2]|e [ps1 w2]|] eqn:Hrec;
        [|done..].
      intros [= <- <-]. constructor; [|by eapply IH].
      left. split; [|done]. unfold in_err_set, live in *.
      destruct (p_state p); try tauto; exfalso; apply Hp; by split.
Qed.

(** X13: a pass of the recovery kernels that comes to its end changes the
    particles in place: the set keeps its length, every particle in state
    [Success] or [Repeat] is as it was, and every other particle is what
    the recovery kernel registered for its state returned when called on it
    with the state reset to [Success]. *)
Theorem recovery_pass_is_pointwise rmap (ps : list (Particle T)) w ps' w' :
  apply_recovery rmap (error_particles ps) ps w = Finished (ps', w') ->
  Forall2
    (fun p p' =>
       (live p /\ p' = p) \/
       (in_err_set p /\
        exists handler w0 w1,
          rmap !! p_state p = Some handler /\
          handler (set_state Success p) w0 = (None, p', w1)))
    ps ps'.
Proof.
  pose proof (apply_recovery_on_references rmap [] ps w) as Href.
  simpl in Href. unfold error_particles. rewrite Href.
  destruct (spec_recover rmap ps w) as [[ps1 w1]|e [ps1 w1]|] eqn:Hrec;
    [|done..].
  intros [= <- <-]. by eapply spec_recover_pointwise.
Qed.
(** ** Recovery kernels that mark for deletion *)

Lemma spec_recover_deleting rmap (ps : list (Particle T)) w :
  (forall c handler p0 w0,
     rmap !! c = Some handler ->
     exists p1 w1, handler p0 w0 = (None, p1, w1) /\ p_state p1 = Delete) ->
  Forall (fun p => in_err_set p -> is_Some (rmap !! p_state p)) ps ->
  Forall (fun p => p_state p <> Delete) ps ->
  exists ps' w',
    spec_recover rmap ps w = Finished (ps', w') /\
    spec_remove_deleted ps' = filter live ps.
Proof.
  intros Hdel Hmapped Hnd. revert w.
  induction ps as [|p ps IH]; intros w; cbn [spec_recover].
  - by exists [], w.
  - apply Forall_cons in Hmapped as [Hp Hmapped].
    apply Forall_cons in Hnd as [Hpnd Hnd].
    destruct (decide (in_err_set p)) as [Herr|Hlive].
    + destruct (Hp Herr) as [handler Hh]. unfold RecoveryKernel in *.
      rewrite Hh.
      destruct (Hdel _ _ (set_state Success p) w Hh) as (p1 & w1 & -> & Hst).
      destruct (IH Hmapped Hnd w1) as (ps' & w' & -> & Hfil).
      exists (p1 :: ps'), w'. split; [done|]. unfold spec_remove_deleted in *.
      rewrite filter_cons_False by (by intros ?).
      rewrite filter_cons_False; [done|].
      intros [?|?]; destruct Herr; congruence.
    + destruct (IH Hmapped Hnd w) as (ps' & w' & -> & Hfil).
      exists (p :: ps'), w'. split; [done|]. unfold spec_remove_deleted in *.
      rewrite filter_cons_True by done.
      rewrite filter_cons_True; [by rewrite Hfil|].
      unfold in_err_set, live in *.
      destruct (p_state p); try tauto; exfalso; apply Hlive; by split.
Qed.

Lemma filter_all (P : Particle T -> Prop) `{!forall p, Decision (P p)}
    (ps : list (Particle T)) :
  Forall P ps -> filter P ps = ps.
Proof.
  induction 1 as [|p ps Hp _ IH]; [done|].
  rewrite filter_cons_True by done. by rewrite IH.
Qed.

Lemma filter_live_no_errors (ps : list (Particle T)) :
  error_particles (filter live ps) = [].
Proof.
  apply error_particles_nil, Forall_forall.
  by intros p [? _]%list_elem_of_filter.
Qed.

(** X14: on the interpreted path, when every recovery kernel in the map
    marks its particle for deletion without raising, and every error state
    left by the core loop has an entry, [Kernel.execute] ends after at most
    one recovery pass: it returns the particles the first core pass left in
    state [Success] or [Repeat], in their order, and all others are
    gone. *)
Theorem execute_with_deleting_recovery
    fuel (self : Kernel T) pset endtime dt recovery w pset1 w1 :
  ParticleType.uses_jit (ptype self) = false ->
  fuel <> 0 ->
  core_loop fuel self pset endtime dt w = Finished (pset1, w1) ->
  (forall c handler p0 w0,
     build_recovery_map recovery !! c = Some handler ->
     exists p1 w2, handler p0 w0 = (None, p1, w2) /\ p_state p1 = Delete) ->
  Forall (fun p => in_err_set p -> p_state p <> Delete ->
                   is_Some (build_recovery_map recovery !! p_state p))
    (particles pset1) ->
  exists w',
    execute fuel self pset endtime dt recovery w =
      Finished (mkParticleSet (filter live (particles pset1))
                  (pset_grid pset1), w').
Proof.
  intros Hjit Hfuel Hcore Hdel Hmapped. unfold execute. rewrite Hcore.
  rewrite remove_deleted_filter, recovery_while_follows_spec.
  set (rmap := build_recovery_map recovery) in *.
  set (ps2 := spec_remove_deleted (particles pset1)).
  assert (Forall (fun p => ~ time_remaining endtime p \/ in_err_set p)
            (particles pset1)) as Hpost.
  { unfold core_loop in Hcore. rewrite Hjit in Hcore.
    by apply execute_python_exit_states in Hcore. }
  assert (filter live ps2 = filter live (particles pset1)) as Hlive2.
  { unfold ps2, spec_remove_deleted. rewrite list_filter_filter.
    apply list_filter_iff. intros p. unfold live. split; [tauto|].
    intros Hl. split; [done|]. destruct Hl; congruence. }
  destruct fuel as [|fuel]; [done|]. cbn [spec_recovery_steps particles].
  destruct (decide (Exists in_err_set ps2)) as [Herr|Hnone].
  - destruct (spec_recover_deleting rmap ps2 w1 Hdel) as (ps' & w' & Hrec & Hfil).
    + unfold ps2, spec_remove_deleted. apply Forall_forall.
      intros p [Hnd Hp]%list_elem_of_filter Hperr.
      rewrite Forall_forall in Hmapped. by apply Hmapped.
    + unfold ps2, spec_remove_deleted. apply Forall_forall.
      by intros p [Hnd _]%list_elem_of_filter.
    + exists w'. rewrite Hrec, Hfil, Hlive2. cbn [pset_grid].
      unfold core_loop, execute_python. rewrite Hjit. cbn [particles pset_grid].
      rewrite for_particles_at_endtime.
      * destruct fuel; cbn [spec_recovery_steps particles];
          (rewrite decide_False; [done|]);
          apply err_set_empty, filter_live_no_errors.
      * apply Forall_forall.
        intros p [Hl Hp]%list_elem_of_filter.
        rewrite Forall_forall in Hpost.
        destruct (Hpost p Hp) as [?|[? ?]]; [done|]. destruct Hl; congruence.
  - exists w1. f_equal. f_equal. f_equal. rewrite <-Hlive2.
    symmetry. apply filter_all.
    apply Forall_forall. intros p Hp.
    apply not_Exists_Forall in Hnone; [|apply _].
    rewrite Forall_forall in Hnone. specialize (Hnone p Hp). simpl in Hnone.
    unfold in_err_set, live in *.
    destruct (p_state p); try tauto; exfalso; apply Hnone; by split.
Qed.
End ExecutorProperties.

(** * Further properties of kernel construction *)
Section KernelProperties.
Context {T : Type} `{PyNum T} `{Host} `{!Collaborators T}.

Lemma append_empty (s1 s2 : string) : s1 +:+ s2 = "" <-> s1 = "" /\ s2 = "".
Proof.
  destruct s1 as [|a s1].
  - change ("" +:+ s2) with s2. split; [by intros ->|by intros [_ ->]].
  - change (String a s1 +:+ s2) with (String a (s1 +:+ s2)).
    split; [done|]. by intros [? _].
Qed.

Lemma app_empty {A} (l1 l2 : list A) : l1 ++ l2 = [] <-> l1 = [] /\ l2 = [].
Proof.
  destruct l1; simpl.
  - split; [by intros ->|by intros [_ ->]].
  - split; [done|]. by intros [? _].
Qed.

Lemma str_falsy_empty (s : string) : str_falsy s = true <-> s = "".
Proof. by destruct s. Qed.

Lemma list_falsy_empty {A} (l : list A) : list_falsy l = true <-> l = [].
Proof. by destruct l. Qed.

Lemma merge_None (A B : Kernel T) :
  merge A B = None <->
  funcname A +:+ funcname B = "" \/ funcvars A ++ funcvars B = [] \/
  funccode A +:+ funccode B = "".
Proof.
  rewrite <-!str_falsy_empty, <-list_falsy_empty.
  unfold merge, __init__, py_or.
  destruct (str_falsy (funcname A +:+ funcname B)); simpl.
  { split; [by left|done]. }
  destruct (list_falsy (funcvars A ++ funcvars B)); simpl.
  { split; [by right; left|done]. }
  destruct (str_falsy (funccode A +:+ funccode B)); simpl.
  { split; [by right; right|done]. }
  split; [done|]. by intros [?|[?|?]].
Qed.

(** X15: [A + B] on two kernels fails (the constructor dereferences the
    missing [pyfunc]) exactly when both function names are empty, or both
    variable lists are empty, or both sources are empty; in every other
    case it produces a kernel. *)
Theorem merge_fails_exactly_when (A B : Kernel T) :
  merge A B = None <->
  (funcname A = "" /\ funcname B = "") \/
  (funcvars A = [] /\ funcvars B = []) \/
  (funccode A = "" /\ funccode B = "").
Proof.
  rewrite merge_None. by rewrite !append_empty, app_empty.
Qed.

(** X16: concatenation is not associative on kernels without variable
    names: when [A] and [B] have empty variable lists and [C] has not,
    [(A+B)+C] fails on [A+B] while [A+(B+C)] is produced. *)
Theorem associativity_needs_variable_names (A B C : Kernel T) :
  funcvars A = [] -> funcvars B = [] -> kernel_wf C ->
  (AB ← merge A B; merge AB C) = None /\
  is_Some (BC ← merge B C; merge A BC).
Proof.
  intros HA HB (Hn & Hc & Hv). split.
  - assert (merge A B = None) as ->; [|done].
    apply merge_None. right. left. rewrite HA, HB. done.
  - destruct (merge B C) as [BC|] eqn:HBC.
    + simpl. destruct (merge A BC) as [K|] eqn:HK; [done|].
      apply merge_None in HK.
      rewrite merge_some in HBC.
      * injection HBC as <-. simpl in HK.
        destruct HK as [HK|[HK|HK]];
          [apply append_empty in HK as [_ HK]; apply append_empty in HK
          |apply app_empty in HK as [_ HK]; apply app_empty in HK
          |apply append_empty in HK as [_ HK]; apply append_empty in HK];
          by destruct HK.
      * intros [_ ?]%append_empty. done.
      * intros [_ ?]%append_empty. done.
      * intros [_ ?]%app_empty. done.
    + apply merge_None in HBC.
      destruct HBC as [HK|[HK|HK]];
        [apply append_empty in HK|apply app_empty in HK
        |apply append_empty in HK]; by destruct HK.
Qed.

Lemma init_from_function g pt (f : PyFunction T) :
  __init__ g pt (Some f) None None None None =
    Some (mkKernel g pt (__name__ f) (co_varnames f) (getsource f)
            (parse_source (getsource f)) (call f)
            (ParticleType.name pt +:+ __name__ f)
            (if ParticleType.uses_jit pt
             then Some (generate_jit g pt (__name__ f)
                          (ParticleType.name pt +:+ __name__ f)
                          (parse_source (getsource f)) (co_varnames f))
             else None)).
Proof. reflexivity. Qed.

(** X17: adding a plain function [f] to a kernel [A] first wraps [f] in a
    kernel for [A]'s grid and particle type.  [A + f] runs [A]'s body first
    under [A]'s parameters; [f + A] runs the body parsed from [f]'s source
    first under [f]'s parameters; the names, sources and variable lists
    are concatenated in the same order. *)
Theorem add_with_plain_function (A : Kernel T) (f : PyFunction T) :
  kernel_wf A ->
  exists K1 K2,
    __add__ A (inr f) = Some K1 /\ __radd__ A (inr f) = Some K2 /\
    funcname K1 = funcname A +:+ __name__ f /\
    funcname K2 = __name__ f +:+ funcname A /\
    fd_body (py_ast K1)
      = fd_body (py_ast A) ++ fd_body (parse_source (getsource f)) /\
    fd_body (py_ast K2)
      = fd_body (parse_source (getsource f)) ++ fd_body (py_ast A) /\
    fd_args (py_ast K1) = fd_args (py_ast A) /\
    fd_args (py_ast K2) = fd_args (parse_source (getsource f)) /\
    funccode K1 = funccode A +:+ getsource f /\
    funccode K2 = getsource f +:+ funccode A /\
    funcvars K1 = funcvars A ++ co_varnames f /\
    funcvars K2 = co_varnames f ++ funcvars A /\
    grid K1 = grid A /\ grid K2 = grid A /\
    ptype K1 = ptype A /\ ptype K2 = ptype A.
Proof.
  intros (Hn & Hc & Hv). unfold __add__, __radd__, as_kernel.
  rewrite init_from_function. cbn [mbind option_bind].
  rewrite !merge_some; cbn [funcname funccode funcvars].
  - eexists _, _. split; [reflexivity|]. split; [reflexivity|]. done.
  - intros [_ ?]%append_empty. done.
  - intros [_ ?]%append_empty. done.
  - intros [_ ?]%app_empty. done.
  - intros [? _]%append_empty. done.
  - intros [? _]%append_empty. done.
  - intros [? _]%app_empty. done.
Qed.

(** X18: a kernel constructed for a JIT particle type files its generated
    source, library and log under one base name, the cache path of the key
    that the [_cache_key] property returns on the finished kernel; a kernel
    constructed for any other particle type carries no JIT data and has no
    cache key. *)
Theorem jit_files_follow_cache_key g pt pf nm fc ast fv (K : Kernel T) :
  __init__ g pt pf nm fc ast fv = Some K ->
  if ParticleType.uses_jit pt then
    exists key jd,
      _cache_key K = Some key /\ jit K = Some jd /\
      src_file jd = cache_path key +:+ ".c" /\
      lib_file jd = cache_path key +:+ ".so" /\
      log_file jd = cache_path key +:+ ".log"
  else jit K = None /\ _cache_key K = None.
Proof.
  unfold __init__. intros Hinit.
  destruct (py_or str_falsy nm (__name__ <$> pf)) as [fname|]; [|done].
  destruct (py_or list_falsy fv (co_varnames <$> pf)) as [fvars|]; [|done].
  destruct (py_or str_falsy fc (getsource <$> pf)) as [fcode|]; [|done].
  simpl in Hinit. injection Hinit as <-.
  destruct (ParticleType.uses_jit pt); [|done].
  unfold _cache_key, generate_jit. simpl.
  destruct (KernelGenerator _ _ _ _) as [[kc fa] ca]. simpl.
  eexists _, _. split; [reflexivity|]. split; [reflexivity|]. done.
Qed.
End KernelProperties.

(** * Evaluation on concrete kernels *)
Section Checks.
Import Demo.
#[local] Set Warnings "-inexact-float".

Lemma AlwaysRepeat_repeats :
  always_repeats (pyfunc (kernel_of Particle_ptype AlwaysRepeat)).
Proof. intros p g t d w. eexists _, _. reflexivity. Defined.

Lemma AlwaysRepeat_keeps_time :
  keeps_time (pyfunc (kernel_of Particle_ptype AlwaysRepeat)).
Proof. intros p g t d w. reflexivity. Defined.

Lemma AlwaysRepeat_keeps_dt :
  keeps_dt (pyfunc (kernel_of Particle_ptype AlwaysRepeat)).
Proof. intros p g t d w. reflexivity. Defined.

Lemma one_particle_has_time_left :
  Exists (time_remaining 1%float) (particles one_particle).
Proof. apply Exists_cons_hd. reflexivity. Defined.

(** One step of [Step] on a particle at time 0 brings it to [endtime = 1]. *)
Lemma execute_python_runs_state_machine_witness :
  spec_core_loop (pyfunc (kernel_of Particle_ptype Step)) tt 1%float 1%float
    [particle_at 0.5%float Repeat] 0
    [make_particle 1%float 1%float Success None 0.5%float] 0.
Proof.
  apply (proj1 (execute_python_runs_state_machine
                  (kernel_of Particle_ptype Step)
                  (pset_of [particle_at 0.5%float Repeat])
                  (pset_of
                     [make_particle 1%float 1%float Success None 0.5%float])
                  1%float 1%float 0 0)).
  exists 2. reflexivity.
Defined.

(** C2, refuted as stated: the particle starts at time 0 with [dt = 1], the
    end time is 1, the kernel returns [Repeat] on every call and touches
    nothing; [Kernel.execute] never comes back. *)
Lemma repeat_kernel_execute_never_returns :
  ~ exists fuel,
      execute fuel (kernel_of Particle_ptype AlwaysRepeat) one_particle
        1%float 1%float None 0 <> OutOfFuel.
Proof.
  intros [fuel Hret]. apply Hret.
  apply execute_repeat_diverges.
  - reflexivity.
  - exact AlwaysRepeat_repeats.
  - exact AlwaysRepeat_keeps_time.
  - exact AlwaysRepeat_keeps_dt.
  - exact one_particle_has_time_left.
Qed.

Lemma repeat_kernel_never_advances_witness :
  execute 7 (kernel_of Particle_ptype AlwaysRepeat) one_particle
    1%float 1%float None 0 = OutOfFuel.
Proof.
  exact (proj2 (proj2 (repeat_kernel_never_advances
                         (kernel_of Particle_ptype AlwaysRepeat)
                         1%float 1%float
                         AlwaysRepeat_repeats AlwaysRepeat_keeps_time))
           AlwaysRepeat_keeps_dt eq_refl one_particle None 0
           one_particle_has_time_left 7).
Defined.

Lemma kernel_exceptions_are_caught_witness :
  while_dt_pos 1 (pyfunc (kernel_of Particle_ptype LeavesDomain)) tt
    1%float 1%float (particle_at 0.5%float Success) 0 1%float =
  Finished
    (make_particle 0%float 1%float ErrorOutOfBounds
       (Some (FieldSamplingError "U")) 0.5%float, 0).
Proof.
  exact (proj1 (kernel_exceptions_are_caught
                  (kernel_of Particle_ptype LeavesDomain) tt
                  1%float 1%float 1%float (particle_at 0.5%float Success) 0
                  (FieldSamplingError "U") (particle_at 0.5%float Success) 0
                  eq_refl eq_refl) 0).
Defined.

(** C8, refuted as stated: the kernel of [test_pset_remove_kernel] marks
    the particle at [lon = 0.5] for deletion and returns nothing; the pass
    advances the time from 0 to 1 and the state after the advance is
    [Delete]. *)
Lemma advance_after_delete_is_not_Success :
  exists p',
    while_body (call DeleteKernel) tt 1%float 1%float
      (particle_at 0.5%float Success) 0 1%float
      = (Continue, 0%float, p', 0) /\
    p_time p' = 1%float /\ p_state p' = Delete /\ p_state p' <> Success.
Proof.
  exists (make_particle 1%float 1%float Delete None 0.5%float).
  split; [reflexivity|]. split; [reflexivity|].
  split; [reflexivity|discriminate].
Qed.

Lemma state_after_advance_witness :
  exists p',
    while_body (call Step) tt 1%float 1%float
      (particle_at 0.5%float Repeat) 0 1%float
      = (Continue, dt_remaining 1%float p', p', 0) /\
    p_time p' = 1%float /\ p_state p' = Success.
Proof.
  exact (state_after_advance (call Step) tt 1%float 1%float 1%float
           (particle_at 0.5%float Repeat) 0 (Some Success)
           (particle_at 0.5%float Repeat) 0 eq_refl (or_intror eq_refl)).
Defined.
Lemma AlwaysFails_core :
  core_loop 1 (kernel_of Particle_ptype AlwaysFails) one_particle
    1%float 1%float 0 = Finished (failed_particle, 0).
Proof. reflexivity. Defined.

Lemma AlwaysFails_err_set :
  error_particles
    (particles
       (mkParticleSet (remove_deleted (particles failed_particle))
          (pset_grid failed_particle))) <> [].
Proof. discriminate. Defined.

Lemma AlwaysFails_round :
  recovery_round 1 (kernel_of Particle_ptype AlwaysFails)
    (build_recovery_map (Some ignore_errors)) 1%float 1%float
    (mkParticleSet (remove_deleted (particles failed_particle))
       (pset_grid failed_particle)) 0
  = Finished
      (mkParticleSet (remove_deleted (particles failed_particle))
         (pset_grid failed_particle), 0).
Proof. vm_compute. reflexivity. Defined.

(** C5, refuted as stated: the kernel raises [ValueError] on every call
    and the recovery kernel registered for [Error] leaves the particle as
    it is.  Every pass of the recovery loop ends where it began, and
    [Kernel.execute] neither returns nor raises. *)
Lemma stuck_recovery_is_never_escalated :
  ~ exists fuel,
      execute fuel (kernel_of Particle_ptype AlwaysFails) one_particle
        1%float 1%float (Some ignore_errors) 0 <> OutOfFuel.
Proof.
  intros [fuel Hret]. apply Hret.
  exact (execute_fixed_point_diverges 1 fuel _ _ _ _ _ _ _ _
           AlwaysFails_core AlwaysFails_err_set AlwaysFails_round).
Qed.

Lemma recovery_fixed_point_is_not_detected_witness :
  execute 9 (kernel_of Particle_ptype AlwaysFails) one_particle
    1%float 1%float (Some ignore_errors) 0 = OutOfFuel.
Proof.
  exact (proj2 (recovery_fixed_point_is_not_detected
                  (kernel_of Particle_ptype AlwaysFails) one_particle
                  1%float 1%float (Some ignore_errors) 0 1 failed_particle 0
                  AlwaysFails_core AlwaysFails_err_set AlwaysFails_round) 9).
Defined.

Lemma Step_wf : kernel_wf (kernel_of Particle_ptype Step).
Proof. repeat split; discriminate. Defined.

Lemma DeleteKernel_wf : kernel_wf (kernel_of Particle_ptype DeleteKernel).
Proof. repeat split; discriminate. Defined.

Lemma AlwaysRepeat_wf : kernel_wf (kernel_of Particle_ptype AlwaysRepeat).
Proof. repeat split; discriminate. Defined.

(** C7, refuted as stated: both kernels are built for the particle type
    named [Particle]; the name of the sum carries that prefix once, the
    concatenation of the two names carries it twice. *)
Lemma name_of_sum_is_not_names_concatenated :
  exists K,
    __add__ (kernel_of Particle_ptype Step)
      (inl (kernel_of Particle_ptype DeleteKernel)) = Some K /\
    name K = "ParticleStepDeleteKernel" /\
    name (kernel_of Particle_ptype Step)
      +:+ name (kernel_of Particle_ptype DeleteKernel)
      = "ParticleStepParticleDeleteKernel" /\
    name K <> name (kernel_of Particle_ptype Step)
                +:+ name (kernel_of Particle_ptype DeleteKernel).
Proof.
  eexists. split; [reflexivity|]. split; [reflexivity|].
  split; [reflexivity|]. vm_compute. discriminate.
Qed.

Lemma add_concatenates_witness :
  exists K,
    __add__ (kernel_of Particle_ptype Step)
      (inl (kernel_of Particle_ptype DeleteKernel)) = Some K /\
    funcname K = "StepDeleteKernel" /\
    name K = "ParticleStepDeleteKernel".
Proof.
  destruct (add_concatenates (kernel_of Particle_ptype Step)
              (kernel_of Particle_ptype DeleteKernel) Step_wf)
    as (K & Hadd & Hfn & Hname & _).
  exists K. split; [exact Hadd|]. split; [exact Hfn|exact Hname].
Defined.

Lemma concatenation_is_associative_witness :
  exists L R,
    (AB ← __add__ (kernel_of Particle_ptype Step)
            (inl (kernel_of Particle_ptype DeleteKernel));
     __add__ AB (inl (kernel_of Particle_ptype AlwaysRepeat))) = Some L /\
    (BC ← __add__ (kernel_of Particle_ptype DeleteKernel)
            (inl (kernel_of Particle_ptype AlwaysRepeat));
     __add__ (kernel_of Particle_ptype Step) (inl BC)) = Some R /\
    name L = name R /\
    execute 3 L three_particles 1%float 1%float None 0
      = execute 3 R three_particles 1%float 1%float None 0.
Proof.
  destruct (concatenation_is_associative (kernel_of Particle_ptype Step)
              (kernel_of Particle_ptype DeleteKernel)
              (kernel_of Particle_ptype AlwaysRepeat)
              Step_wf DeleteKernel_wf AlwaysRepeat_wf)
    as (L & R & Hl & Hr & Hname & _ & _ & _ & _ & _ & Hexec).
  exists L, R. split; [exact Hl|]. split; [exact Hr|].
  split; [exact Hname|]. apply Hexec.
Defined.

Lemma cache_key_is_md5_of_name_ptype_fields_witness :
  _cache_key (kernel_of JITParticle_ptype Step) =
    Some (md5_hexdigest
            ("JITParticleStep" +:+ "JITParticle:lon,lat,dep,time,dt" +:+
             "U:Geographic-V:Geographic")).
Proof.
  exact (cache_key_is_md5_of_name_ptype_fields
           (kernel_of JITParticle_ptype Step)
           (generate_jit tt JITParticle_ptype "Step" "JITParticleStep"
              (parse_source (getsource Step)) kernel_params)
           eq_refl).
Defined.

(** The deletion kernel of [test_pset_remove_kernel] on three particles:
    the one at [lon = 0.5] goes, the other two end at time 1 in state
    [Success]. *)
Lemma execute_leaves_live_particles_witness :
  Forall (fun p => p_state p = Success \/ p_state p = Repeat)
    [make_particle 1%float 1%float Success None 0.1%float;
     make_particle 1%float 1%float Success None 0.3%float].
Proof.
  exact (proj1 (execute_leaves_live_particles 3
                  (kernel_of Particle_ptype DeleteKernel) three_particles
                  1%float 1%float None 0
                  (pset_of
                     [make_particle 1%float 1%float Success None 0.1%float;
                      make_particle 1%float 1%float Success None 0.3%float])
                  0 eq_refl)).
Defined.
End Checks.

(** * Evaluation of the further properties *)
Section MoreChecks.
Import Demo.
#[local] Set Warnings "-inexact-float".

Lemma fix_indentation_unindented_witness :
  fix_indentation "def f(p): pass" = "def f(p): pass".
Proof.
  exact (fix_indentation_unindented "def f(p): pass" (or_introl eq_refl)).
Defined.

(** A kernel written inside a function body, four spaces in. *)
Lemma fix_indentation_dedents_witness :
  fix_indentation
    (String.concat nl
       (map (fun l => "    " +:+ l) ["def f(p):"; "    return p"; ""]))
  = String.concat nl ["def f(p):"; "    return p"; ""].
Proof.
  apply (fix_indentation_dedents "    " "def f(p):" ["    return p"; ""]).
  - discriminate.
  - reflexivity.
  - reflexivity.
  - reflexivity.
  - repeat constructor.
Defined.

Lemma execute_python_skips_finished_particles_witness :
  execute_python 0 (kernel_of Particle_ptype AlwaysFails) arrived_particle
    1%float 1%float 0 = Finished (arrived_particle, 0).
Proof.
  refine (execute_python_skips_finished_particles 0
            (kernel_of Particle_ptype AlwaysFails) arrived_particle
            1%float 1%float 0 _).
  repeat constructor. unfold time_remaining. vm_compute. discriminate.
Defined.

Lemma execute_python_postcondition_witness :
  length (particles failed_particle) = length (particles one_particle) /\
  pset_grid failed_particle = pset_grid one_particle /\
  Forall (fun p => ~ time_remaining 1%float p \/ in_err_set p)
    (particles failed_particle).
Proof.
  exact (execute_python_postcondition 1 (kernel_of Particle_ptype AlwaysFails)
           one_particle 1%float 1%float 0 failed_particle 0 eq_refl).
Defined.

Lemma execute_returns_with_no_time_remaining_witness :
  Forall (fun p => live p /\ ~ time_remaining 1%float p)
    [make_particle 1%float 1%float Success None 0.1%float;
     make_particle 1%float 1%float Success None 0.3%float].
Proof.
  exact (execute_returns_with_no_time_remaining 3
           (kernel_of Particle_ptype DeleteKernel) three_particles
           1%float 1%float None 0
           (pset_of
              [make_particle 1%float 1%float Success None 0.1%float;
               make_particle 1%float 1%float Success None 0.3%float])
           0 eq_refl eq_refl).
Defined.

Lemma execute_without_errors_witness :
  execute 3 (kernel_of Particle_ptype DeleteKernel) three_particles
    1%float 1%float (Some ignore_errors) 0
  = Finished
      (pset_of
         [make_particle 1%float 1%float Success None 0.1%float;
          make_particle 1%float 1%float Success None 0.3%float], 0).
Proof.
  apply (execute_without_errors 3 (kernel_of Particle_ptype DeleteKernel)
           three_particles 1%float 1%float (Some ignore_errors) 0
           (pset_of
              [make_particle 1%float 1%float Success None 0.1%float;
               make_particle 1%float 1%float Delete None 0.5%float;
               make_particle 1%float 1%float Success None 0.3%float]) 0).
  - reflexivity.
  - repeat constructor; (by left; left) || (by right).
Defined.

(** The default map has no entry for [Delete]. *)
Lemma recovery_lookup_miss_raises_witness :
  recovery_while 1 1 (kernel_of Particle_ptype DeleteKernel)
    (build_recovery_map None) 1%float 1%float marked_particle 0
  = Propagated (KeyError Delete) (marked_particle, 0).
Proof.
  apply (recovery_lookup_miss_raises 0 1
           (kernel_of Particle_ptype DeleteKernel) (build_recovery_map None)
           1%float 1%float marked_particle 0 []
           (make_particle 1%float 1%float Delete None 0.5%float) []).
  - reflexivity.
  - constructor.
  - split; discriminate.
  - reflexivity.
Defined.

Lemma recovery_pass_is_pointwise_witness :
  Forall2
    (fun p p' =>
       (live p /\ p' = p) \/
       (in_err_set p /\
        exists handler w0 w1,
          ignore_errors !! p_state p = Some handler /\
          handler (set_state Success p) w0 = (None, p', w1)))
    (particles failed_particle)
    [make_particle 0%float 1%float Success
       (Some (PyException "ValueError" "bad")) 0.5%float].
Proof.
  exact (recovery_pass_is_pointwise ignore_errors (particles failed_particle) 0
           [make_particle 0%float 1%float Success
              (Some (PyException "ValueError" "bad")) 0.5%float] 0 eq_refl).
Defined.

Lemma default_recovery_deletes c (handler : RecoveryKernel float) p0 w0 :
  build_recovery_map None !! c = Some handler ->
  exists p1 w2, handler p0 w0 = (None, p1, w2) /\ p_state p1 = Delete.
Proof.
  intros Hh. destruct c; vm_compute in Hh; try discriminate Hh;
    injection Hh as <-; by eexists _, _.
Defined.

(** Every particle leaves the domain; the default recovery deletes them
    all. *)
Lemma execute_with_deleting_recovery_witness :
  exists w',
    execute 3 (kernel_of Particle_ptype LeavesDomain) three_particles
      1%float 1%float None 0 = Finished (pset_of [], w').
Proof.
  apply (execute_with_deleting_recovery 3
           (kernel_of Particle_ptype LeavesDomain) three_particles
           1%float 1%float None 0
           (pset_of
              [make_particle 0%float 1%float ErrorOutOfBounds
                 (Some (FieldSamplingError "U")) 0.1%float;
               make_particle 0%float 1%float ErrorOutOfBounds
                 (Some (FieldSamplingError "U")) 0.5%float;
               make_particle 0%float 1%float ErrorOutOfBounds
                 (Some (FieldSamplingError "U")) 0.3%float]) 0).
  - reflexivity.
  - discriminate.
  - reflexivity.
  - exact default_recovery_deletes.
  - repeat constructor; intros _ _; by eexists.
Defined.

Lemma Nothing_has_no_variables :
  funcvars (kernel_of Particle_ptype Nothing) = [].
Proof. reflexivity. Defined.

Lemma associativity_needs_variable_names_witness :
  (AB ← merge (kernel_of Particle_ptype Nothing)
          (kernel_of Particle_ptype Nothing);
   merge AB (kernel_of Particle_ptype Step)) = None /\
  is_Some (BC ← merge (kernel_of Particle_ptype Nothing)
                  (kernel_of Particle_ptype Step);
           merge (kernel_of Particle_ptype Nothing) BC).
Proof.
  exact (associativity_needs_variable_names
           (kernel_of Particle_ptype Nothing) (kernel_of Particle_ptype Nothing)
           (kernel_of Particle_ptype Step)
           Nothing_has_no_variables Nothing_has_no_variables Step_wf).
Defined.

Lemma add_with_plain_function_witness :
  exists K1 K2,
    __add__ (kernel_of Particle_ptype Step) (inr DeleteKernel) = Some K1 /\
    __radd__ (kernel_of Particle_ptype Step) (inr DeleteKernel) = Some K2 /\
    funcname K1 = "StepDeleteKernel" /\ funcname K2 = "DeleteKernelStep".
Proof.
  destruct (add_with_plain_function (kernel_of Particle_ptype Step)
              DeleteKernel Step_wf)
    as (K1 & K2 & H1 & H2 & Hn1 & Hn2 & _).
  exists K1, K2. split; [exact H1|]. split; [exact H2|].
  split; [exact Hn1|exact Hn2].
Defined.

Lemma jit_files_follow_cache_key_witness :
  exists key jd,
    _cache_key (kernel_of JITParticle_ptype Step) = Some key /\
    jit (kernel_of JITParticle_ptype Step) = Some jd /\
    src_file jd = cache_path key +:+ ".c" /\
    lib_file jd = cache_path key +:+ ".so" /\
    log_file jd = cache_path key +:+ ".log".
Proof.
  exact (jit_files_follow_cache_key tt JITParticle_ptype (Some Step)
           None None None None (kernel_of JITParticle_ptype Step) eq_refl).
Defined.
End MoreChecks.
